(** * Flask-MultiAuth: provider linking, attribute mapping and LDAP helpers

    A shallow embedding of the pure core of [flask_multiauth]:
    - [flask_multiauth/util.py]: [get_canonical_provider_map], [convert_data],
      [resolve_provider_type], [validate_provider_map];
    - [flask_multiauth/core.py]: [MultiAuth.handle_auth_info],
      [MultiAuth.login_finished], [MultiAuth._create_providers],
      [_MultiAuthState];
    - [flask_multiauth/providers/ldap/util.py]: [find_one],
      [build_search_filter], [get_page_cookie].

    Python dicts are finite maps ([gmap]), Python sets are finite sets
    ([gset]), exceptions are values of [exn] carried by [result]. *)

From Stdlib Require Import Ascii String DecimalString.
From stdpp Require Import base option list strings gmap fin_maps sets.

Local Open Scope string_scope.
Local Open Scope list_scope.

(** ** Exceptions and results *)

(** The exception classes raised by the modelled functions, with their
    message (or, for [KeyError] and [AttributeError], the missing name). *)
Inductive exn : Type :=
  | ValueError (msg : string)
  | RuntimeError (msg : string)
  | TypeError (msg : string)
  | KeyError (key : string)
  | AttributeError (attr : string)
  | AssertionError (msg : string)
  | UserRetrievalFailed (msg : string)
  | LDAPServerError (msg : string)
  | LDAPError (kind : string).

Inductive result (A : Type) : Type :=
  | Ok (a : A)
  | Raise (e : exn).
Arguments Ok {A} a.
Arguments Raise {A} e.

#[global] Instance result_ret : MRet result := λ A a, Ok a.
#[global] Instance result_bind : MBind result := λ A B k r,
  match r with
  | Ok a => k a
  | Raise e => Raise e
  end.

(** ** Python values and dicts *)

(** Values of a flat record: [None] or a text string. *)
Inductive value : Type :=
  | VNone
  | VStr (s : string).

#[global] Instance value_eq_dec : EqDecision value.
Proof. solve_decision. Defined.

(** Python truthiness: [None] and the empty string are falsy. *)
Definition truthy (v : value) : bool :=
  match v with
  | VNone => false
  | VStr s => negb (String.eqb s "")
  end.

Definition truthy_str (s : string) : bool := negb (String.eqb s "").

(** A flat record: [dict] from text keys to values. *)
Abbreviation dict := (gmap string value).

(** [iteritems(d)]: the items of a dict in its iteration order. *)
Definition iteritems {A : Type} (d : gmap string A) : list (string * A) :=
  map_to_list d.

(** [d.get(key)], with the default [None]. *)
Definition dict_get (d : dict) (key : string) : value :=
  default VNone (d !! key).

(** [d.update(items)]: the pairs are stored one after the other. *)
Definition dict_update {A : Type} (d : gmap string A) (items : list (string * A))
    : gmap string A :=
  foldl (λ acc kv, <[kv.1 := kv.2]> acc) d items.

(** ** [flask_multiauth.util.convert_data] *)

(** The keys read by the mapping: [set(mapping.values())]. *)
Definition mapped_keys (mapping : gmap string string) : gset string :=
  list_to_set (snd <$> iteritems mapping).

Definition convert_data (data : dict) (mapping : gmap string string)
    (keys : option (list string)) : dict :=
  let mapped_keys : gset string := mapped_keys mapping in
  let result : dict := filter (λ kv, kv.1 ∉ mapped_keys) data in
  let result :=
    dict_update result
      ((λ ts : string * string, (ts.1, dict_get data ts.2)) <$> iteritems mapping) in
  match keys with
  | None => result
  | Some keys =>
      let keys : gset string := list_to_set keys in
      let result : dict := filter (λ kv, kv.1 ∈ keys) result in
      dict_update result
        (iteritems (gset_to_gmap VNone (keys ∖ dom result)))
  end.


(** ** [flask_multiauth.util.get_canonical_provider_map] *)

(** A link-object is a dict with the optional keys ['identity_provider'],
    ['user_provider'] and ['mapping']; an absent key is [None]. *)
Record link : Type := Link {
  link_identity_provider : option string;
  link_user_provider : option string;
  link_mapping : option (gmap string string)
}.

(** One configured element [p]: a text string or a link-object. *)
Inductive entry : Type :=
  | EntryName (p : string)
  | EntryLink (p : link).

(** The three types that [get_canonical_provider_map] takes for a sequence
    of elements. *)
Inductive sequence_type : Type := ListType | TupleType | SetType.

(** A configured value of the provider map: a list, a tuple or a set, with
    its elements in iteration order, or any single value. *)
Inductive raw_links : Type :=
  | Single (p : entry)
  | Sequence (kind : sequence_type) (ps : list entry).

(** [{'identity_provider': p} if isinstance(p, string_types) else p] *)
Definition canonical_link (p : entry) : link :=
  match p with
  | EntryName p =>
      {| link_identity_provider := Some p;
         link_user_provider := None;
         link_mapping := None |}
  | EntryLink p => p
  end.

(** The body of the loop, for one configured value. What it stores is
    always a tuple, whatever the type of the configured sequence: the
    result is this tuple, as the list of its elements. *)
Definition canonical_links (identity_providers : raw_links) : list link :=
  let identity_providers :=
    match identity_providers with
    | Sequence _ ps => ps
    | Single p => [p]
    end in
  canonical_link <$> identity_providers.

Definition get_canonical_provider_map (provider_map : gmap string raw_links)
    : gmap string (list link) :=
  foldl (λ canonical item, <[item.1 := canonical_links item.2]> canonical)
        ∅ (iteritems provider_map).

(** [link.get('mapping', {})], as [handle_auth_info] reads the field mapping
    of a link. *)
Definition link_get_mapping (l : link) : gmap string string :=
  default ∅ (link_mapping l).

(** ** Providers and [flask_multiauth.util.resolve_provider_type] *)

Inductive provider_base : Type := AuthProvider | UserProvider.

#[global] Instance provider_base_eq_dec : EqDecision provider_base.
Proof. solve_decision. Defined.

Definition base_name (base : provider_base) : string :=
  match base with
  | AuthProvider => "AuthProvider"
  | UserProvider => "UserProvider"
  end.

(** A provider class: its name, the provider bases it inherits from, and
    its class attributes [type] and [multi_instance]. *)
Record provider_class : Type := {
  cls_name : string;
  cls_bases : list provider_base;
  type : string;
  multi_instance : bool
}.

Definition issubclass (cls : provider_class) (base : provider_base) : bool :=
  bool_decide (base ∈ cls_bases cls).

(** The value of a ['type'] setting: a class, or the identifier of a type. *)
Inductive type_ref : Type :=
  | TypeClass (cls : provider_class)
  | TypeName (name : string).

Record entry_point : Type := {
  module_name : string;
  load : provider_class
}.

(** The settings dict of one configured provider: its ['type'] key, when
    present, and its other keys. *)
Record config_entry : Type := {
  settings_type : option type_ref;
  settings_rest : dict
}.

(** [settings.pop('type')]: the popped value and what is left. *)
Definition pop_type (settings : config_entry) : result (type_ref * dict) :=
  match settings_type settings with
  | Some type_ => Ok (type_, settings_rest settings)
  | None => Raise (KeyError "type")
  end.

(** A provider instance, [cls(multiauth, name, settings)]. *)
Record provider : Type := {
  provider_cls : provider_class;
  provider_name : string;
  provider_settings : dict
}.

Section resolve.
(** [pkg_resources.iter_entry_points(base._entry_point, type_)]: the
    installed entry points, which the code takes from the environment. *)
Variable iter_entry_points : provider_base → string → list entry_point.

Definition resolve_provider_type (base : provider_base) (type_ : type_ref)
    (registry : option (gmap string provider_class)) : result provider_class :=
  match type_ with
  | TypeClass cls =>
      if issubclass cls base then Ok cls
      else Raise (TypeError ("Received a class " +:+ cls_name cls +:+
                             " which is not a subclass of " +:+ base_name base))
  | TypeName type_ =>
      cls ← match registry ≫= (λ registry, registry !! type_) with
            | Some cls => Ok cls
            | None =>
                match iter_entry_points base type_ with
                | [] => Raise (ValueError ("Unknown type: " +:+ type_))
                | [entry_point] => Ok (load entry_point)
                | entry_points =>
                    Raise (RuntimeError
                             ("Type " +:+ type_ +:+ " is not unique. Defined in " +:+
                              String.concat ", " (module_name <$> entry_points)))
                end
            end;
      if issubclass cls base then Ok cls
      else Raise (TypeError ("Found a class " +:+ cls_name cls +:+
                             " which is not a subclass of " +:+ base_name base))
  end.

(** ** [MultiAuth._create_providers] *)

(** The class one configured entry resolves to. *)
Definition entry_class (base : provider_base) (settings : config_entry)
    : result provider_class :=
  popped ← pop_type settings;
  resolve_provider_type base popped.1 None.

(** The [for] loop over the configured entries, with its two
    accumulators [providers] and [provider_types]. *)
Fixpoint create_providers_loop (base : provider_base)
    (items : list (string * config_entry))
    (providers : gmap string provider) (provider_types : gset string)
    : result (gmap string provider) :=
  match items with
  | [] => Ok providers
  | (name, settings) :: items =>
      popped ← pop_type settings;
      cls ← resolve_provider_type base popped.1 None;
      if negb (multi_instance cls) && bool_decide (type cls ∈ provider_types)
      then Raise (RuntimeError
                    ("Provider does not support multiple instances: " +:+ type cls))
      else
        create_providers_loop base items
          (<[name := {| provider_cls := cls; provider_name := name;
                        provider_settings := popped.2 |}]> providers)
          ({[type cls]} ∪ provider_types)
  end.

(** [config] is [current_app.config['MULTIAUTH_{}_PROVIDERS'.format(key)]]. *)
Definition _create_providers (config : gmap string config_entry)
    (base : provider_base) : result (gmap string provider) :=
  create_providers_loop base (iteritems config) ∅ ∅.
End resolve.

(** ** [_MultiAuthState] and [flask_multiauth.util.validate_provider_map] *)

(** [__init__] sets [auth_providers], [user_providers] and [provider_map].
    [validate_provider_map] also reads an attribute [identity_providers],
    which an instance has only if it was assigned after construction:
    [None] stands for the attribute being unset. *)
Record _MultiAuthState : Type := {
  auth_providers : gmap string provider;
  user_providers : gmap string provider;
  provider_map : gmap string (list link);
  identity_providers : option (gmap string provider)
}.

(** The state that [_MultiAuthState.__init__] builds. *)
Definition new_state : _MultiAuthState :=
  {| auth_providers := ∅; user_providers := ∅; provider_map := ∅;
     identity_providers := None |}.

(** [p['identity_provider']] *)
Definition getitem_identity_provider (p : link) : result string :=
  match link_identity_provider p with
  | Some n => Ok n
  | None => Raise (KeyError "identity_provider")
  end.

(** [mapM] for [result]: the first exception stops the traversal. *)
Fixpoint traverse {A B : Type} (f : A → result B) (l : list A) : result (list B) :=
  match l with
  | [] => Ok []
  | a :: l => b ← f a; bs ← traverse f l; Ok (b :: bs)
  end.

(** [{p['identity_provider'] for providers in itervalues(provider_map)
      for p in providers}] *)
Definition targeted_providers (provider_map : gmap string (list link))
    : result (gset string) :=
  names ← traverse getitem_identity_provider
             (mjoin (snd <$> iteritems provider_map));
  Ok (list_to_set names).

(** [state.identity_providers] *)
Definition getattr_identity_providers (state : _MultiAuthState)
    : result (gmap string provider) :=
  match identity_providers state with
  | Some ps => Ok ps
  | None => Raise (AttributeError "identity_providers")
  end.

(** [', '.join(invalid_keys)]: the names in the iteration order of the set. *)
Definition join_keys (invalid_keys : gset string) : string :=
  String.concat ", " (elements invalid_keys).

Definition validate_provider_map (state : _MultiAuthState) : result unit :=
  let invalid_keys := dom (auth_providers state) ∖ dom (provider_map state) in
  if bool_decide (invalid_keys ≠ ∅) then
    Raise (ValueError ("Auth providers not linked to identity providers: " +:+
                       join_keys invalid_keys))
  else
    targeted_providers ← targeted_providers (provider_map state);
    identity_providers ← getattr_identity_providers state;
    let invalid_keys := targeted_providers ∖ dom identity_providers in
    if bool_decide (invalid_keys ≠ ∅) then
      Raise (ValueError ("Broken identity provider links: " +:+ join_keys invalid_keys))
    else Ok ().

(** [needle in haystack], on strings. *)
Fixpoint occurs (needle haystack : string) : bool :=
  String.prefix needle haystack ||
  match haystack with
  | EmptyString => false
  | String _ haystack => occurs needle haystack
  end.

(** ** [MultiAuth.handle_auth_info] and [MultiAuth.login_finished] *)

(** The two policy options read from [current_app.config]. *)
Record app_config : Type := {
  MULTIAUTH_ALL_MATCHING_USERS : bool;
  MULTIAUTH_REQUIRE_USER : bool
}.

(** An [AuthInfo]: the auth provider that produced it and its data. *)
Record AuthInfo : Type := {
  auth_info_provider : provider;
  auth_info_data : dict
}.

Section core.
(** [UserInfo] objects, and the application's callback. *)
Context {UserInfo Callback : Type}.

(** [auth_info.map(mapping)] and [provider.get_user_from_auth(auth_info)]
    belong to the data and provider classes, which the core only calls. *)
Variable auth_info_map : AuthInfo → gmap string string → result AuthInfo.
Variable get_user_from_auth : provider → AuthInfo → result (option UserInfo).

(** What the callback is called with: one user or [None], or a list. *)
Inductive callback_arg : Type :=
  | OneUser (user : option UserInfo)
  | UserList (users : list UserInfo).

(** The call [self.user_callback(user)]. *)
Inductive callback_call : Type :=
  | Called (user_callback : Callback) (user : callback_arg).

Definition login_finished (user_callback : option Callback) (user : callback_arg)
    : result callback_call :=
  match user_callback with
  | None => Raise (AssertionError "No user callback has been registered.")
  | Some callback => Ok (Called callback user)
  end.

(** [self.user_providers[link['user_provider']]] *)
Definition link_provider (state : _MultiAuthState) (l : link) : result provider :=
  match link_user_provider l with
  | None => Raise (KeyError "user_provider")
  | Some n =>
      match user_providers state !! n with
      | None => Raise (KeyError n)
      | Some provider => Ok provider
      end
  end.

(** The [for link in links] loop, with its accumulator [users]. *)
Fixpoint collect_users (config : app_config) (state : _MultiAuthState)
    (auth_info : AuthInfo) (links : list link) (users : list UserInfo)
    : result (list UserInfo) :=
  match links with
  | [] => Ok users
  | l :: links =>
      provider ← link_provider state l;
      let mapping := link_get_mapping l in
      mapped ← auth_info_map auth_info mapping;
      user_info ← get_user_from_auth provider mapped;
      match user_info with
      | None => collect_users config state auth_info links users
      | Some user_info =>
          let users := users ++ [user_info] in
          if negb (MULTIAUTH_ALL_MATCHING_USERS config) then Ok users
          else collect_users config state auth_info links users
      end
  end.

(** What one link yields: the three statements of the loop body that
    fetch the provider, map the data and query the provider. *)
Definition link_query (state : _MultiAuthState) (auth_info : AuthInfo) (l : link)
    : result (option UserInfo) :=
  provider ← link_provider state l;
  mapped ← auth_info_map auth_info (link_get_mapping l);
  get_user_from_auth provider mapped.

Definition handle_auth_info (config : app_config) (state : _MultiAuthState)
    (user_callback : option Callback) (auth_info : AuthInfo)
    : result callback_call :=
  links ← match provider_map state !! provider_name (auth_info_provider auth_info) with
          | Some links => Ok links
          | None => Raise (KeyError (provider_name (auth_info_provider auth_info)))
          end;
  users ← collect_users config state auth_info links [];
  if bool_decide (users = []) && MULTIAUTH_REQUIRE_USER config then
    Raise (UserRetrievalFailed "No user found")
  else if MULTIAUTH_ALL_MATCHING_USERS config then
    login_finished user_callback (UserList users)
  else
    login_finished user_callback (OneUser (head users)).
End core.

(** ** [flask_multiauth.providers.ldap.util] *)

(** *** [get_page_cookie] *)

(** A server control of a search response: its control type (an OID), its
    criticality and, for the paged-results control, its cookie. *)
Record server_control : Type := {
  controlType : string;
  criticality : bool;
  cookie : string
}.

(** [SimplePagedResultsControl.controlType], the OID of RFC 2696. *)
Definition SimplePagedResultsControl_controlType : string :=
  "1.2.840.113556.1.4.319".

Definition get_page_cookie (server_ctrls : list server_control) : result string :=
  let page_ctrls :=
    filter (λ ctrl, controlType ctrl = SimplePagedResultsControl_controlType)
           server_ctrls in
  match page_ctrls with
  | [] => Raise (LDAPServerError "The LDAP server ignores the RFC 2696 specification")
  | ctrl :: _ => Ok (cookie ctrl)
  end.

(** *** [find_one] *)

Inductive search_scope : Type := SCOPE_BASE | SCOPE_ONELEVEL | SCOPE_SUBTREE.

(** The attributes of a directory entry. *)
Abbreviation ldap_attrs := (gmap string (list string)).

(** One element of a search result: the DN ([None] for a search reference)
    and the data that comes with it. *)
Abbreviation ldap_entry := (option string * ldap_attrs)%type.

(** The connection: its method [search_ext_s(base, scope, filterstr,
    attrlist, timeout, sizelimit)], which answers with the entries found or
    raises. *)
Record ldap_connection : Type := {
  search_ext_s :
    string → search_scope → string → option (list string) → Z → Z →
    result (list ldap_entry)
}.

Record ldap_settings : Type := {
  timeout : Z
}.

(** [LDAPContext = namedtuple('LDAPContext', ('connection', 'settings'))] *)
Record LDAPContext : Type := {
  connection : ldap_connection;
  settings : ldap_settings
}.

(** The truth value of a DN: [None] and the empty string are falsy. *)
Definition truthy_dn (dn : option string) : bool :=
  match dn with
  | None => false
  | Some dn => truthy_str dn
  end.

(** [find_one], with [current_ldap] passed explicitly. The pair [(None,
    None)] is the value returned when nothing was found. *)
Definition find_one (current_ldap : LDAPContext) (base_dn search_filter : string)
    (attributes : option (list string))
    : result (option string * option ldap_attrs) :=
  entry ← search_ext_s (connection current_ldap) base_dn SCOPE_SUBTREE
             search_filter attributes (timeout (settings current_ldap)) 1;
  Ok (default (None, None)
        (head ((λ e : ldap_entry, (e.1, Some e.2)) <$>
               filter (λ e : ldap_entry, truthy_dn e.1) entry))).

(** *** [build_search_filter] *)

(** Python's [%] on a text template and a tuple of text arguments, as
    CPython 3.11 implements it ([unicode_format] in
    [Objects/unicodeobject.c], on a 64-bit platform). After a [%] comes
    another [%], which writes one, or a conversion specifier that is read
    character by character: flags, a width, a precision, a length modifier
    and the conversion character. The argument of a conversion is fetched
    before the conversion character is looked at. The characters of a text
    are code points below U+0100. *)

Definition PY_SSIZE_T_MAX : N := 9223372036854775807.
Definition INT_MAX : N := 2147483647.

Definition is_digit (c : ascii) : bool :=
  (48 <=? N_of_ascii c)%N && (N_of_ascii c <=? 57)%N.

Definition digit_value (c : ascii) : N := (N_of_ascii c - 48)%N.

Definition is_flag (c : ascii) : bool :=
  existsb (Ascii.eqb c) ["-"; "+"; " "; "#"; "0"]%char.

Definition is_length_modifier (c : ascii) : bool :=
  existsb (Ascii.eqb c) ["h"; "l"; "L"]%char.

(** The hexadecimal digits of a character, in lower case: two of them, or
    as many as it takes. *)
Definition hex_digit (n : N) : ascii :=
  default "0"%char (String.get (N.to_nat n) "0123456789abcdef").

Definition hex2 (c : ascii) : string :=
  String (hex_digit (N_of_ascii c / 16)) (String (hex_digit (N_of_ascii c mod 16)) "").

Definition hex (c : ascii) : string :=
  if (N_of_ascii c <? 16)%N then String (hex_digit (N_of_ascii c)) "" else hex2 c.

Definition double_quote : ascii := ascii_of_nat 34.

Definition has_char (c : ascii) (s : string) : bool :=
  existsb (Ascii.eqb c) (list_ascii_of_string s).

(** [repr(s)], and [ascii(s)] when [ascii_only] is set: the text between
    quotes, double ones when it holds a single quote and no double one,
    with the quote, the backslash and the characters that cannot be
    printed in escaped notation. *)
Definition repr_char (ascii_only : bool) (quote c : ascii) : string :=
  let n := N_of_ascii c in
  if Ascii.eqb c quote || Ascii.eqb c "\"%char then String "\"%char (String c "")
  else if (n =? 9)%N then "\t"
  else if (n =? 10)%N then "\n"
  else if (n =? 13)%N then "\r"
  else if (n <? 32)%N || (n =? 127)%N then "\x" +:+ hex2 c
  else if (n <? 127)%N then String c ""
  else if ascii_only || ((128 <=? n)%N && (n <=? 160)%N) || (n =? 173)%N
       then "\x" +:+ hex2 c
       else String c "".

Fixpoint repr_chars (ascii_only : bool) (quote : ascii) (s : string) : string :=
  match s with
  | EmptyString => ""
  | String c s => repr_char ascii_only quote c +:+ repr_chars ascii_only quote s
  end.

Definition repr (ascii_only : bool) (s : string) : string :=
  let quote :=
    if has_char "'"%char s && negb (has_char double_quote s) then double_quote
    else "'"%char in
  String quote (repr_chars ascii_only quote s +:+ String quote "").

(** [' ' * n] *)
Definition spaces (n : nat) : string := string_of_list_ascii (replicate n " "%char).

(** The first [n] characters of a text. *)
Fixpoint take_chars (n : N) (text : string) : string :=
  match text with
  | EmptyString => ""
  | String c text => if (n =? 0)%N then "" else String c (take_chars (N.pred n) text)
  end.

(** The output of a converted text: cut to the precision for [s], [r] and
    [a], then padded with spaces to the width, on the right when the flag
    [-] was given. *)
Definition format_output (ljust : bool) (width precision : option N) (c : ascii)
    (text : string) : string :=
  let text :=
    match precision with
    | Some prec =>
        if existsb (Ascii.eqb c) ["s"; "r"; "a"]%char then take_chars prec text else text
    | None => text
    end in
  let padding :=
    spaces (N.to_nat (default 0%N width - N.of_nat (String.length text))) in
  if ljust then text +:+ padding else padding +:+ text.

(** Where the formatter is in the template: in literal text, or in a
    conversion specifier: after its [%], among the flags, in the width,
    after the [.] of the precision, in the precision, or after a length
    modifier. *)
Inductive format_state : Type :=
  | InLiteral
  | AfterPercent
  | InFlags (ljust : bool)
  | InWidth (ljust : bool) (width : N)
  | AfterDot (ljust : bool) (width : option N)
  | InPrecision (ljust : bool) (width : option N) (precision : N)
  | AfterLength (ljust : bool) (width precision : option N).

(** What one character of the template does: the formatter goes on in
    another state, or it writes text and is left with the arguments not
    yet used, or it raises. *)
Inductive format_action : Type :=
  | Continue (st : format_state)
  | Emit (text : string) (args : list string)
  | Stop (e : exn).

(** [*] as width or precision: the next argument is fetched, and a text is
    not an [int]. *)
Definition star_argument (args : list string) : format_action :=
  match args with
  | [] => Stop (TypeError "not enough arguments for format string")
  | _ :: _ => Stop (TypeError "* wants int")
  end.

(** The conversion character [c], at index [pos] of the template. *)
Definition conversion (ljust : bool) (width precision : option N) (pos : nat)
    (c : ascii) (args : list string) : format_action :=
  match args with
  | [] => Stop (TypeError "not enough arguments for format string")
  | v :: args =>
      if Ascii.eqb c "s"%char then Emit (format_output ljust width precision c v) args
      else if Ascii.eqb c "r"%char then
        Emit (format_output ljust width precision c (repr false v)) args
      else if Ascii.eqb c "a"%char then
        Emit (format_output ljust width precision c (repr true v)) args
      else if existsb (Ascii.eqb c) ["i"; "d"; "u"]%char then
        Stop (TypeError ("%" +:+ String c " format: a real number is required, not str"))
      else if existsb (Ascii.eqb c) ["o"; "x"; "X"]%char then
        Stop (TypeError ("%" +:+ String c " format: an integer is required, not str"))
      else if existsb (Ascii.eqb c) ["e"; "E"; "f"; "F"; "g"; "G"]%char then
        Stop (TypeError "must be real number, not str")
      else if Ascii.eqb c "c"%char then
        if (String.length v =? 1)%nat
        then Emit (format_output ljust width precision c v) args
        else Stop (TypeError "%c requires int or char")
      else
        Stop (ValueError
                ("unsupported format character '" +:+
                 String (if (31 <=? N_of_ascii c)%N && (N_of_ascii c <=? 126)%N
                         then c else "?"%char)
                        ("' (0x" +:+ hex c +:+ ") at index " +:+
                         NilZero.string_of_uint (Nat.to_uint pos))))
  end.

(** After the precision: a length modifier, which is skipped, or the
    conversion character. *)
Definition after_precision (ljust : bool) (width precision : option N) (pos : nat)
    (c : ascii) (args : list string) : format_action :=
  if is_length_modifier c then Continue (AfterLength ljust width precision)
  else conversion ljust width precision pos c args.

(** After the width: the precision, or what follows it. *)
Definition after_width (ljust : bool) (width : option N) (pos : nat) (c : ascii)
    (args : list string) : format_action :=
  if Ascii.eqb c "."%char then Continue (AfterDot ljust width)
  else after_precision ljust width None pos c args.

(** After the flags: the width, or what follows it. *)
Definition after_flags (ljust : bool) (pos : nat) (c : ascii) (args : list string)
    : format_action :=
  if Ascii.eqb c "*"%char then star_argument args
  else if is_digit c then Continue (InWidth ljust (digit_value c))
  else after_width ljust None pos c args.

Definition read_flag (ljust : bool) (pos : nat) (c : ascii) (args : list string)
    : format_action :=
  if is_flag c then Continue (InFlags (ljust || Ascii.eqb c "-"%char))
  else after_flags ljust pos c args.

(** The character [c], at index [pos] of the template, in the state [st]. *)
Definition format_step (st : format_state) (pos : nat) (c : ascii) (args : list string)
    : format_action :=
  match st with
  | InLiteral =>
      if Ascii.eqb c "%"%char then Continue AfterPercent else Emit (String c "") args
  | AfterPercent =>
      if Ascii.eqb c "%"%char then Emit "%" args
      else if Ascii.eqb c "("%char then Stop (TypeError "format requires a mapping")
      else read_flag false pos c args
  | InFlags ljust => read_flag ljust pos c args
  | InWidth ljust width =>
      if is_digit c then
        if (((PY_SSIZE_T_MAX - digit_value c) / 10) <? width)%N
        then Stop (ValueError "width too big")
        else Continue (InWidth ljust (width * 10 + digit_value c)%N)
      else after_width ljust (Some width) pos c args
  | AfterDot ljust width =>
      if Ascii.eqb c "*"%char then star_argument args
      else if is_digit c then Continue (InPrecision ljust width (digit_value c))
      else after_precision ljust width (Some 0%N) pos c args
  | InPrecision ljust width precision =>
      if is_digit c then
        if (((INT_MAX - digit_value c) / 10) <? precision)%N
        then Stop (ValueError "precision too big")
        else Continue (InPrecision ljust width (precision * 10 + digit_value c)%N)
      else after_precision ljust width (Some precision) pos c args
  | AfterLength ljust width precision => conversion ljust width precision pos c args
  end.

(** The template from index [pos] on, in the state [st]. At its end, a
    conversion specifier that was begun is incomplete, and arguments that
    are left over were not converted. *)
Fixpoint format_chars (st : format_state) (pos : nat) (template : string)
    (args : list string) : result string :=
  match template with
  | EmptyString =>
      match st, args with
      | InLiteral, [] => Ok ""
      | InLiteral, _ :: _ =>
          Raise (TypeError "not all arguments converted during string formatting")
      | _, _ => Raise (ValueError "incomplete format")
      end
  | String c template =>
      match format_step st pos c args with
      | Continue st => format_chars st (S pos) template args
      | Emit text args => r ← format_chars InLiteral (S pos) template args; Ok (text +:+ r)
      | Stop e => Raise e
      end
  end.

(** [template % args] *)
Definition percent_format (template : string) (args : list string) : result string :=
  format_chars InLiteral 0 template args.

(** [ldap.filter.escape_filter_chars], in its default escape mode: the
    characters backslash, [*], [(], [)] and NUL are replaced by their quoted
    notation. *)
Definition escape_char (c : ascii) : string :=
  if Ascii.eqb c "\"%char then "\5c"
  else if Ascii.eqb c "*"%char then "\2a"
  else if Ascii.eqb c "("%char then "\28"
  else if Ascii.eqb c ")"%char then "\29"
  else if Ascii.eqb c "000"%char then "\00"
  else String c "".

Fixpoint escape_string (s : string) : string :=
  match s with
  | EmptyString => ""
  | String c s => escape_char c +:+ escape_string s
  end.

(** On [None] the call [assertion_value.replace] fails. *)
Definition escape_filter_chars (assertion_value : value) : result string :=
  match assertion_value with
  | VStr s => Ok (escape_string s)
  | VNone => Raise (AttributeError "replace")
  end.

(** [ldap.filter.filter_format]:
    [filter_template % tuple(map(escape_filter_chars, assertion_values))] *)
Definition filter_format (filter_template : string) (assertion_values : list value)
    : result string :=
  args ← traverse escape_filter_chars assertion_values;
  percent_format filter_template args.

(** [s * n] on strings. *)
Fixpoint str_mul (s : string) (n : nat) : string :=
  match n with
  | O => ""
  | S n => s +:+ str_mul s n
  end.

Section search_filter.
(** [convert_app_data] is imported from [flask_multiauth.util]; it maps
    the criteria through the field mapping. *)
Variable convert_app_data : dict → gmap string string → dict.

(** [None] as a result is the absence of a filter. *)
Definition build_search_filter (criteria : dict) (type_filter : string)
    (mapping : option (gmap string string)) (exact : bool)
    : result (option string) :=
  let assertions := convert_app_data criteria (default ∅ mapping) in
  let assertions :=
    filter (λ kv : string * value, truthy_str kv.1 && truthy kv.2)
           (iteritems assertions) in
  match assertions with
  | [] => Ok None
  | _ :: _ =>
      let assert_template := if exact then "(%s=%s)" else "(%s=*%s*)" in
      let filter_template :=
        "(&" +:+ str_mul assert_template (length assertions) +:+ type_filter +:+ ")" in
      r ← filter_format filter_template
            (flat_map (λ kv : string * value, [VStr kv.1; kv.2]) assertions);
      Ok (Some r)
  end.
End search_filter.

(** ** Vocabulary of the statements *)

(** The elements of a configured value, in the order the configuration
    gives them. *)
Definition configured_entries (identity_providers : raw_links) : list entry :=
  match identity_providers with
  | Single p => [p]
  | Sequence _ ps => ps
  end.

(** The instance that [_create_providers] stores for an entry, and the error
    it raises on a second instance of a type. *)
Definition instance_of (cls : provider_class) (name : string) (s : config_entry)
    : provider :=
  {| provider_cls := cls; provider_name := name;
     provider_settings := settings_rest s |}.

Definition duplicate_error (cls : provider_class) : exn :=
  RuntimeError ("Provider does not support multiple instances: " +:+ type cls).

(** The entry that follows [pre] in [items] is refused: its class does not
    allow several instances and its type was seen, in [types] or in [pre]. *)
Definition refused (iter_entry_points : provider_base → string → list entry_point)
    (base : provider_base) (types : gset string)
    (items pre : list (string * config_entry)) (cls : provider_class) : Prop :=
  ∃ n s post,
    items = pre ++ (n, s) :: post ∧
    entry_class iter_entry_points base s = Ok cls ∧
    multi_instance cls = false ∧
    (type cls ∈ types ∨
     ∃ n0 s0 cls0, (n0, s0) ∈ pre ∧
                   entry_class iter_entry_points base s0 = Ok cls0 ∧
                   type cls0 = type cls).

(** The auth providers of the registry that the provider map does not link. *)
Definition unlinked (state : _MultiAuthState) (a : string) : Prop :=
  a ∈ dom (auth_providers state) ∧ a ∉ dom (provider_map state).

(** The identity provider names that some link of the provider map targets. *)
Definition targeted (state : _MultiAuthState) (x : string) : Prop :=
  ∃ a links l, provider_map state !! a = Some links ∧ l ∈ links ∧
               link_identity_provider l = Some x.

(** The targeted names that the registry [registry] does not hold. *)
Definition broken (state : _MultiAuthState) (registry : gmap string provider)
    (x : string) : Prop :=
  targeted state x ∧ x ∉ dom registry.

(** One failure of the validation that names every unlinked auth provider
    and every broken identity provider reference. *)
Definition reports_everything (state : _MultiAuthState)
    (registry : gmap string provider) : Prop :=
  ∃ msg, validate_provider_map state = Raise (ValueError msg) ∧
         (∀ a, unlinked state a → occurs a msg = true) ∧
         (∀ x, broken state registry x → occurs x msg = true).


(** The criteria that [build_search_filter] keeps: key and value are
    truthy. *)
Definition surviving (assertions : dict) : list (string * value) :=
  filter (λ kv : string * value, truthy_str kv.1 && truthy kv.2) (iteritems assertions).




(** ** Example configurations *)

(** A provider map that mixes a bare name, a link-object and a single
    value. *)
Definition example_raw_map : gmap string raw_links :=
  {[ "ldap-auth" := Sequence ListType [EntryName "ldap";
                              EntryLink (Link (Some "sso") None (Some {[ "id" := "uid" ]}))];
     "form" := Single (EntryName "local") ]}.

(** The two provider classes of the test suite. *)
Definition FooProvider : provider_class :=
  {| cls_name := "FooProvider"; cls_bases := [AuthProvider];
     type := "foo"; multi_instance := true |}.

Definition UniqueProvider : provider_class :=
  {| cls_name := "UniqueProvider"; cls_bases := [AuthProvider];
     type := "unique"; multi_instance := false |}.

Definition example_provider (name : string) : provider :=
  {| provider_cls := FooProvider; provider_name := name;
     provider_settings := ∅ |}.

(** The provider map [{a: [x]}] with the auth providers [a] and [b] and no
    identity provider. *)
Definition example_state : _MultiAuthState :=
  {| auth_providers := {[ "a" := example_provider "a"; "b" := example_provider "b" ]};
     user_providers := ∅;
     provider_map := get_canonical_provider_map {[ "a" := Sequence ListType [EntryName "x"] ]};
     identity_providers := Some ∅ |}.

(** The same without the auth provider [b]: only the reference to [x] is
    wrong. *)
Definition example_state_linked : _MultiAuthState :=
  {| auth_providers := {[ "a" := example_provider "a" ]};
     user_providers := ∅;
     provider_map := get_canonical_provider_map {[ "a" := Sequence ListType [EntryName "x"] ]};
     identity_providers := Some ∅ |}.

(** Entry points that hold them under the type names [foo] and [unique]. *)
Definition example_entry_points (base : provider_base) (type_ : string)
    : list entry_point :=
  if String.eqb type_ "foo" then [{| module_name := "tests"; load := FooProvider |}]
  else if String.eqb type_ "unique"
       then [{| module_name := "tests"; load := UniqueProvider |}]
       else [].

(** [{'test': {'type': 'unique', 'foo': 'bar'},
      'test2': {'type': 'unique', 'hello': 'world'}}] *)
Definition config_unique_twice : gmap string config_entry :=
  {[ "test" := {| settings_type := Some (TypeName "unique");
                  settings_rest := {[ "foo" := VStr "bar" ]} |};
     "test2" := {| settings_type := Some (TypeName "unique");
                   settings_rest := {[ "hello" := VStr "world" ]} |} ]}.

(** The same with the type [foo] for both entries. *)
Definition config_foo_twice : gmap string config_entry :=
  {[ "test" := {| settings_type := Some (TypeName "foo");
                  settings_rest := {[ "foo" := VStr "bar" ]} |};
     "test2" := {| settings_type := Some (TypeName "foo");
                   settings_rest := {[ "hello" := VStr "world" ]} |} ]}.

(** A connection that answers every search with a referral, an entry
    without DN and the entry of [jdoe]. *)
Definition example_connection : ldap_connection :=
  {| search_ext_s := λ _ _ _ _ _ _,
       Ok [(None, ∅); (Some "", ∅);
           (Some "uid=jdoe,dc=example", {[ "uid" := ["jdoe"] ]});
           (Some "uid=other,dc=example", ∅)] |}.

Definition example_ldap : LDAPContext :=
  {| connection := example_connection; settings := {| timeout := 30 |} |}.

(** A directory in which no search finds anything. *)
Definition example_ldap_empty : LDAPContext :=
  {| connection := {| search_ext_s := λ _ _ _ _ _ _, Ok [] |};
     settings := {| timeout := 30 |} |}.

(** The provider map [{a: x}] as normalization leaves it, with the user
    provider [x] registered. *)
Definition example_state_resolution : _MultiAuthState :=
  {| auth_providers := {[ "a" := example_provider "a" ]};
     user_providers := {[ "x" := example_provider "x" ]};
     provider_map := get_canonical_provider_map {[ "a" := Single (EntryName "x") ]};
     identity_providers := None |}.

(** The configuration [{a: x}] of the provider map. *)
Definition example_named_map : gmap string raw_links :=
  {[ "a" := Single (EntryName "x") ]}.

(** A provider map whose links carry the key ['user_provider']. *)
Definition example_state_user_links : _MultiAuthState :=
  {| auth_providers := {[ "a" := example_provider "a" ]};
     user_providers := {[ "x" := example_provider "x"; "y" := example_provider "y" ]};
     provider_map :=
       get_canonical_provider_map
         {[ "a" := Sequence ListType [EntryLink (Link None (Some "x") None);
                             EntryLink (Link None (Some "y") (Some {[ "id" := "uid" ]}))] ]};
     identity_providers := None |}.

Definition example_auth_info : AuthInfo :=
  {| auth_info_provider := example_provider "a";
     auth_info_data := {[ "uid" := VStr "jdoe" ]} |}.

(** The attribute mapper of [flask_multiauth.util], without key list, in
    the place of [convert_app_data]. *)
Definition convert_criteria (criteria : dict) (mapping : gmap string string) : dict :=
  convert_data criteria mapping None.

(** A tuple of link-objects, as normalization returns it, in the place of
    a configured value. *)
Definition as_configured (links : list link) : raw_links :=
  Sequence TupleType (EntryLink <$> links).

(** A state that the validation accepts. *)
Definition example_state_valid : _MultiAuthState :=
  {| auth_providers := {[ "a" := example_provider "a" ]};
     user_providers := ∅;
     provider_map := get_canonical_provider_map {[ "a" := Sequence ListType [EntryName "x"] ]};
     identity_providers := Some {[ "x" := example_provider "x" ]} |}.

(** A registry of provider types and entry points that both know the type
    name [foo]. *)
Definition example_registry : gmap string provider_class :=
  {[ "foo" := UniqueProvider ]}.

(** The instances that [config_foo_twice] gives. *)
Definition example_providers : gmap string provider :=
  {[ "test" := {| provider_cls := FooProvider; provider_name := "test";
                  provider_settings := {[ "foo" := VStr "bar" ]} |};
     "test2" := {| provider_cls := FooProvider; provider_name := "test2";
                   provider_settings := {[ "hello" := VStr "world" ]} |} ]}.

(** Providers that all know the user, and providers of which only [y] does. *)
Definition example_all_know (p : provider) (auth_info : AuthInfo)
    : result (option string) :=
  Ok (Some (provider_name p +:+ "-user")).

Definition example_only_y_knows (p : provider) (auth_info : AuthInfo)
    : result (option string) :=
  Ok (if String.eqb (provider_name p) "y" then Some "y-user" else None).

Definition example_auth_info_map (auth_info : AuthInfo) (mapping : gmap string string)
    : result AuthInfo :=
  Ok {| auth_info_provider := auth_info_provider auth_info;
        auth_info_data := convert_data (auth_info_data auth_info) mapping None |}.

(** The policy [config] with [MULTIAUTH_ALL_MATCHING_USERS] switched off. *)
Definition first_match_only (config : app_config) : app_config :=
  {| MULTIAUTH_ALL_MATCHING_USERS := false;
     MULTIAUTH_REQUIRE_USER := MULTIAUTH_REQUIRE_USER config |}.




(** ** The rest of [flask_multiauth.core]: searches, refresh and login *)

(** *** [MultiAuth.search_users], [MultiAuth.search_groups] and
    [MultiAuth.refresh_user] *)

Section queries.
(** The user provider classes, which the core only calls: the capability
    flags of a provider and its methods. The generators are taken as the
    lists of what they yield. *)
Context {UserInfo GroupInfo : Type}.
Variable supports_search : provider → bool.
Variable has_groups : provider → bool.
Variable supports_refresh : provider → bool.
Variable map_search_criteria : provider → dict → dict.
Variable provider_search_users : provider → dict → bool → list UserInfo.
Variable provider_search_groups : provider → string → bool → list GroupInfo.
Variable provider_refresh_user : provider → string → dict → result (option UserInfo).

(** [itervalues(d)] *)
Definition itervalues {A : Type} (d : gmap string A) : list A :=
  snd <$> map_to_list d.

(** [providers is not None and provider.name not in providers] *)
Definition filtered_out (providers : option (list string)) (provider : provider) : bool :=
  match providers with
  | None => false
  | Some providers => negb (bool_decide (provider_name provider ∈ providers))
  end.

Definition search_users (state : _MultiAuthState) (providers : option (list string))
    (exact : bool) (criteria : dict) : list UserInfo :=
  flat_map
    (λ provider,
       if filtered_out providers provider then []
       else if negb (supports_search provider) then []
       else provider_search_users provider (map_search_criteria provider criteria) exact)
    (itervalues (user_providers state)).

Definition search_groups (state : _MultiAuthState) (name : string)
    (providers : option (list string)) (exact : bool) : list GroupInfo :=
  flat_map
    (λ provider,
       if filtered_out providers provider then []
       else if negb (has_groups provider) then []
       else provider_search_groups provider name exact)
    (itervalues (user_providers state)).

(** [multiauth_data] is [None] or a dict. When its ['_provider'] is [None],
    no provider is registered under it, and the message of the error cannot
    be built from it. *)
Definition refresh_user (state : _MultiAuthState) (identifier : string)
    (multiauth_data : option dict) : result (option UserInfo) :=
  match multiauth_data with
  | None => Raise (ValueError "This user cannot be refreshed")
  | Some data =>
      match data !! "_provider" with
      | None => Raise (KeyError "_provider")
      | Some VNone =>
          Raise (TypeError "cannot concatenate 'str' and 'NoneType' objects")
      | Some (VStr provider_name) =>
          match user_providers state !! provider_name with
          | None =>
              Raise (UserRetrievalFailed ("Provider does not exist: " +:+ provider_name))
          | Some provider =>
              if negb (supports_refresh provider) then
                Raise (UserRetrievalFailed
                         ("Provider does not support refreshing: " +:+ provider_name))
              else provider_refresh_user provider identifier data
          end
      end
  end.
End queries.

(** A user provider [x] that supports refreshing, and the refresh data of a
    user of this provider. *)
Definition example_refresh (p : provider) (identifier : string) (data : dict)
    : result (option string) :=
  Ok (Some (identifier +:+ "@" +:+ provider_name p)).

Definition example_refresh_data : dict :=
  {[ "_provider" := VStr "x"; "dn" := VStr "uid=jdoe,dc=example" ]}.

(** *** The login process: [process_login] and what it calls *)

(** The exceptions of the login and connection layers: the ones above and
    those of [flask_multiauth.exceptions] and [werkzeug.exceptions] that
    these layers raise themselves. *)
Inductive exc : Type :=
  | Std (e : exn)
  | MultiAuthException (msg : string)
  | NotFound (msg : string).

Inductive outcome (A : Type) : Type :=
  | Returns (a : A)
  | Raises (e : exc).
Arguments Returns {A} a.
Arguments Raises {A} e.

(** The session of the request, as far as the extension uses it: its keys
    ['multiauth_next_url'] and ['multiauth_auth_failed'], [None] when the
    key is absent. *)
Record session : Type := {
  multiauth_next_url : option string;
  multiauth_auth_failed : option bool
}.

(** The request: [request.args.get('next')] and the data it submits. *)
Record request : Type := {
  args_next : option string;
  submitted : option dict
}.

(** A login form of a provider, with the answers of [is_submitted()] and
    [validate_on_submit()] and its [data]. *)
Record form : Type := {
  is_submitted : bool;
  validate_on_submit : bool;
  form_data : dict
}.

(** The keyword arguments of the two calls of [render_template]. *)
Inductive template_context : Type :=
  | SelectorContext (providers : list provider) (next : option string)
                    (auth_failed : bool)
  | FormContext (login_form : form) (login_provider : provider).

Inductive response : Type :=
  | Redirect (location : string)
  | Rendered (template : string) (context : template_context).

(** The options of [current_app.config] that the login process reads. The
    templates are kept under their whole option name. *)
Record login_config : Type := {
  templates : gmap string (option string);
  MULTIAUTH_LOGIN_ENDPOINT : string;
  MULTIAUTH_SUCCESS_ENDPOINT : string;
  MULTIAUTH_FAILURE_MESSAGE : string;
  MULTIAUTH_FAILURE_CATEGORY : string
}.

Section login.
Context {UserInfo Callback : Type}.

(** What the login process changes: the session, the flashed messages with
    their category, and the calls of the user callback. *)
Record browser : Type := {
  browser_session : session;
  flashes : list (string * string);
  callback_calls : list (callback_call (UserInfo := UserInfo) (Callback := Callback))
}.

(** Flask and the provider classes, which the login process only calls:
    [url_for(endpoint, **values)], the failure message formatted with the
    text of an exception, the test [isinstance(e, MultiAuthException)], and
    the methods and the flag [is_external] of an auth provider. *)
Variable url_for : string → list (string * option string) → string.
Variable format_failure : string → exc → string.
Variable is_multiauth_exception : exc → bool.
Variable auth_info_map : AuthInfo → gmap string string → result AuthInfo.
Variable get_user_from_auth : provider → AuthInfo → result (option UserInfo).
Variable is_external : provider → bool.
Variable initiate_external_login : provider → outcome response.
Variable login_form : provider → request → form.
Variable process_local_login : provider → dict → outcome AuthInfo.

Definition with_session (b : browser) (s : session) : browser :=
  {| browser_session := s; flashes := flashes b; callback_calls := callback_calls b |}.

Definition _set_next_url (cfg : login_config) (req : request) (s : session) : session :=
  let next_url := args_next req in
  let next_url :=
    match next_url with
    | Some next_url =>
        if truthy_str next_url then next_url
        else url_for (MULTIAUTH_SUCCESS_ENDPOINT cfg) []
    | None => url_for (MULTIAUTH_SUCCESS_ENDPOINT cfg) []
    end in
  {| multiauth_next_url := Some next_url;
     multiauth_auth_failed := multiauth_auth_failed s |}.

Definition _get_next_url (cfg : login_config) (s : session) : string * session :=
  match multiauth_next_url s with
  | Some next_url =>
      (next_url, {| multiauth_next_url := None;
                    multiauth_auth_failed := multiauth_auth_failed s |})
  | None => (url_for (MULTIAUTH_SUCCESS_ENDPOINT cfg) [], s)
  end.

Definition redirect_success (cfg : login_config) (b : browser) : browser * response :=
  let popped := _get_next_url cfg (browser_session b) in
  (with_session b popped.2, Redirect popped.1).

(** The response is [None] when no redirect is asked for. *)
Definition handle_auth_error (cfg : login_config) (e : exc) (redirect_to_login : bool)
    (b : browser) : browser * option response :=
  let b :=
    {| browser_session :=
         {| multiauth_next_url := multiauth_next_url (browser_session b);
            multiauth_auth_failed := Some true |};
       flashes := flashes b ++ [(format_failure (MULTIAUTH_FAILURE_MESSAGE cfg) e,
                                 MULTIAUTH_FAILURE_CATEGORY cfg)];
       callback_calls := callback_calls b |} in
  if redirect_to_login then (b, Some (Redirect (url_for (MULTIAUTH_LOGIN_ENDPOINT cfg) [])))
  else (b, None).

Definition render_template (cfg : login_config) (template_key : string)
    (kwargs : template_context) : outcome response :=
  let key := "MULTIAUTH_" +:+ template_key +:+ "_TEMPLATE" in
  match templates cfg !! key with
  | None => Raises (Std (KeyError key))
  | Some None => Raises (Std (RuntimeError ("Config option missing: " +:+ key)))
  | Some (Some template) => Returns (Rendered template kwargs)
  end.

Definition _login_selector (cfg : login_config) (state : _MultiAuthState)
    (req : request) (b : browser) : browser * outcome response :=
  let providers := auth_providers state in
  let next_url := args_next req in
  let auth_failed := default false (multiauth_auth_failed (browser_session b)) in
  let b := with_session b {| multiauth_next_url := multiauth_next_url (browser_session b);
                             multiauth_auth_failed := None |} in
  match itervalues providers with
  | [provider] =>
      if negb auth_failed then
        (b, Returns (Redirect (url_for (MULTIAUTH_LOGIN_ENDPOINT cfg)
                                 [("provider", Some (provider_name provider));
                                  ("next", next_url)])))
      else (b, render_template cfg "LOGIN_SELECTOR"
                 (SelectorContext (itervalues providers) next_url auth_failed))
  | _ => (b, render_template cfg "LOGIN_SELECTOR"
               (SelectorContext (itervalues providers) next_url auth_failed))
  end.

Definition _login_external (cfg : login_config) (provider : provider) (req : request)
    (b : browser) : browser * outcome response :=
  (with_session b (_set_next_url cfg req (browser_session b)),
   initiate_external_login provider).

(** [_login_form], on the requests on which the calls before its [try]
    return: [provider.login_form()], [form.is_submitted()],
    [form.validate_on_submit()] and [_set_next_url()]. What these calls
    raise is not modelled. *)
Definition _login_form (cfg : login_config) (policy : app_config)
    (state : _MultiAuthState) (user_callback : option Callback)
    (provider : provider) (req : request) (b : browser) : browser * outcome response :=
  let form := login_form provider req in
  let b := if negb (is_submitted form)
           then with_session b (_set_next_url cfg req (browser_session b)) else b in
  let render b := (b, render_template cfg "LOGIN_FORM" (FormContext form provider)) in
  let failed e b :=
    if is_multiauth_exception e then render (handle_auth_error cfg e false b).1
    else (b, Raises e) in
  if validate_on_submit form then
    match process_local_login provider (form_data form) with
    | Raises e => failed e b
    | Returns auth_info =>
        match handle_auth_info auth_info_map get_user_from_auth policy state
                               user_callback auth_info with
        | Raise e => failed (Std e) b
        | Ok call =>
            let b := {| browser_session := browser_session b; flashes := flashes b;
                        callback_calls := callback_calls b ++ [call] |} in
            let redirected := redirect_success cfg b in
            (redirected.1, Returns redirected.2)
        end
    end
  else render b.

Definition process_login (cfg : login_config) (policy : app_config)
    (state : _MultiAuthState) (user_callback : option Callback)
    (provider : option string) (req : request) (b : browser)
    : browser * outcome response :=
  match provider with
  | None => _login_selector cfg state req b
  | Some provider =>
      match auth_providers state !! provider with
      | None => (b, Raises (NotFound "Provider does not exist"))
      | Some provider =>
          if is_external provider then _login_external cfg provider req b
          else _login_form cfg policy state user_callback provider req b
      end
  end.

(** [flask_multiauth.util.login_view]: the view [func] wrapped. *)
Definition login_view (cfg : login_config)
    (func : browser → browser * outcome response) (b : browser)
    : browser * outcome (option response) :=
  match func b with
  | (b, Returns r) => (b, Returns (Some r))
  | (b, Raises e) =>
      if is_multiauth_exception e then
        let handled := handle_auth_error cfg e true b in
        (handled.1, Returns handled.2)
      else (b, Raises e)
  end.
End login.

(** An application for the login process: its options, its Flask functions
    and the login form of its provider [a], which accepts the password
    [secret]. *)
Definition example_login_config : login_config :=
  {| templates := {[ "MULTIAUTH_LOGIN_SELECTOR_TEMPLATE" := Some "selector.html";
                     "MULTIAUTH_LOGIN_FORM_TEMPLATE" := Some "form.html" ]};
     MULTIAUTH_LOGIN_ENDPOINT := "login";
     MULTIAUTH_SUCCESS_ENDPOINT := "index";
     MULTIAUTH_FAILURE_MESSAGE := "Authentication failed: {error}";
     MULTIAUTH_FAILURE_CATEGORY := "error" |}.

Definition example_url_for (endpoint : string) (values : list (string * option string))
    : string :=
  "/" +:+ endpoint.

Definition example_format_failure (message : string) (e : exc) : string := message.

Definition example_is_multiauth_exception (e : exc) : bool :=
  match e with
  | MultiAuthException _ | Std (UserRetrievalFailed _) => true
  | _ => false
  end.

Definition example_login_form (p : provider) (req : request) : form :=
  match submitted req with
  | Some data => {| is_submitted := true; validate_on_submit := true; form_data := data |}
  | None => {| is_submitted := false; validate_on_submit := false; form_data := ∅ |}
  end.

Definition example_process_local_login (p : provider) (data : dict) : outcome AuthInfo :=
  match data !! "password" with
  | Some (VStr "secret") => Returns example_auth_info
  | _ => Raises (MultiAuthException "Invalid credentials")
  end.

Definition example_browser : browser (UserInfo := string) (Callback := string) :=
  {| browser_session := {| multiauth_next_url := None; multiauth_auth_failed := None |};
     flashes := [];
     callback_calls := [] |}.

(** The login form of the provider [a] in this application. *)
Definition example_login (req : request)
    (b : browser (UserInfo := string) (Callback := string))
    : browser * outcome response :=
  _login_form example_url_for example_format_failure example_is_multiauth_exception
              example_auth_info_map example_all_know example_login_form
              example_process_local_login example_login_config
              {| MULTIAUTH_ALL_MATCHING_USERS := false; MULTIAUTH_REQUIRE_USER := true |}
              example_state_user_links (Some "callback") (example_provider "a") req b.



Definition example_get : request :=
  {| args_next := Some "/private"; submitted := None |}.

Definition example_post (password : string) : request :=
  {| args_next := None; submitted := Some {[ "password" := VStr password ]} |}.

(** ** The rest of [flask_multiauth.providers.ldap.util]: connections *)

(** The settings of an LDAP provider that [ldap_connect] reads, and the
    other ones. *)
Record connection_settings : Type := {
  uri : string;
  bind_dn : string;
  bind_password : string;
  tls : bool;
  starttls : bool;
  other_settings : dict
}.

(** The calls that [ldap_connect] makes to the LDAP library, to the
    connection it creates and to [warnings]. *)
Inductive ldap_call : Type :=
  | initialize (uri : string)
  | set_protocol_version (version : Z)
  | set_option (option value : string)
  | start_tls_s
  | warn (message : string)
  | simple_bind_s (who cred : string).

#[global] Instance ldap_call_eq_dec : EqDecision ldap_call.
Proof. solve_decision. Defined.

(** The key of a cached connection:
    [frozenset((k, hash(v)) for k, v in iteritems(settings) if k in conn_keys)] *)
Abbreviation cache_key := (gset (string * Z)).

Section connections.
(** The connection objects of the LDAP library. *)
Context {Conn : Type}.

(** The environment: the scheme that [urlparse] finds in a URI, the
    exception with which the library answers a call, if any, the connection
    object that [ldap.initialize] creates, what [unbind_s] raises on a
    connection, and [hash] on text. *)
Variable urlparse_scheme : string → string.
Variable perform : ldap_call → option exc.
Variable new_connection : string → Conn.
Variable unbind_s : Conn → option exc.
Variable hash_text : string → Z.

Definition hash_bool (b : bool) : Z := if b then 1 else 0.

(** The application context: absent, or there with [g], whose attribute
    [_multiauth_ldap_connections] is unset or a dict. *)
Inductive app_context : Type :=
  | NoAppContext
  | AppContext (_multiauth_ldap_connections : option (gmap cache_key Conn)).

(** A context on [_ldap_ctx_stack]: the object, told from every other one
    by [frame_id], with its connection and settings. *)
Record frame : Type := {
  frame_id : nat;
  frame_connection : Conn;
  frame_settings : connection_settings
}.

(** What the connection layer reads and changes: the application context,
    the stack of LDAP contexts with the number of the next object, and the
    calls made to the library so far. *)
Record ldap_state : Type := {
  app_ctx : app_context;
  frames : list frame;
  next_id : nat;
  calls : list ldap_call
}.

(** The calls are made one after the other; the first that raises ends
    them. *)
Fixpoint run_calls (todo : list ldap_call) : list ldap_call * option exc :=
  match todo with
  | [] => ([], None)
  | call :: todo =>
      match perform call with
      | Some e => ([call], Some e)
      | None => let rest := run_calls todo in (call :: rest.1, rest.2)
      end
  end.

(** The body of [ldap_connect], without its cache: the calls it makes and
    its result. *)
Definition ldap_connect_calls (settings : connection_settings) : list ldap_call :=
  let scheme := urlparse_scheme (uri settings) in
  [ initialize (uri settings);
    set_protocol_version 3;
    set_option "OPT_REFERRALS" "0";
    set_option "OPT_X_TLS" (if tls settings then "OPT_X_TLS_DEMAND" else "OPT_X_TLS_NEVER") ]
  ++ (if negb (String.eqb scheme "ldaps") && starttls settings then [start_tls_s]
      else if starttls settings then
        [warn "Unable to start TLS, LDAP connection already secured over SSL (LDAPS)"]
      else [])
  ++ [ simple_bind_s (bind_dn settings) (bind_password settings) ].

Definition ldap_connect_uncached (settings : connection_settings)
    : list ldap_call * outcome Conn :=
  let done := run_calls (ldap_connect_calls settings) in
  (done.1, match done.2 with
           | Some e => Raises e
           | None => Returns (new_connection (uri settings))
           end).

Definition conn_key (settings : connection_settings) : cache_key :=
  {[ ("uri", hash_text (uri settings)); ("bind_dn", hash_text (bind_dn settings));
     ("bind_password", hash_text (bind_password settings));
     ("tls", hash_bool (tls settings)); ("starttls", hash_bool (starttls settings)) ]}.

(** [_get_ldap_cache]: the cache, and the application context after it. *)
Definition _get_ldap_cache (ctx : app_context) : gmap cache_key Conn * app_context :=
  match ctx with
  | NoAppContext => (∅, NoAppContext)
  | AppContext (Some cache) => (cache, ctx)
  | AppContext None => (∅, AppContext (Some ∅))
  end.

(** [_cache_ldap_connection(fn)], the decorator of [ldap_connect]. Outside
    an application context the cache it writes to is lost. *)
Definition _cache_ldap_connection
    (fn : connection_settings → list ldap_call * outcome Conn)
    (settings : connection_settings) (st : ldap_state) : ldap_state * outcome Conn :=
  let got := _get_ldap_cache (app_ctx st) in
  let key := conn_key settings in
  match got.1 !! key with
  | Some ldap_ctx =>
      ({| app_ctx := got.2; frames := frames st; next_id := next_id st; calls := calls st |},
       Returns ldap_ctx)
  | None =>
      let made := fn settings in
      match made.2 with
      | Returns ldap_ctx =>
          ({| app_ctx := match got.2 with
                     | NoAppContext => NoAppContext
                     | AppContext _ => AppContext (Some (<[key := ldap_ctx]> got.1))
                     end;
              frames := frames st; next_id := next_id st;
              calls := calls st ++ made.1 |},
           Returns ldap_ctx)
      | Raises e =>
          ({| app_ctx := got.2; frames := frames st; next_id := next_id st;
              calls := calls st ++ made.1 |},
           Raises e)
      end
  end.

Definition ldap_connect (settings : connection_settings) (st : ldap_state)
    : ldap_state * outcome Conn :=
  _cache_ldap_connection ldap_connect_uncached settings st.

(** The [except] clauses of [ldap_context]. *)
Definition translate_ldap_error (e : exc) : exc :=
  match e with
  | Std (LDAPError kind) =>
      if String.eqb kind "SERVER_DOWN" then
        MultiAuthException "The LDAP server is unreachable"
      else if String.eqb kind "INVALID_CREDENTIALS" then
        Std (ValueError "Invalid bind credentials")
      else if String.eqb kind "SIZELIMIT_EXCEEDED" then
        MultiAuthException "Size limit exceeded (try setting a smaller page size)"
      else if String.eqb kind "TIMELIMIT_EXCEEDED" then
        MultiAuthException "The time limit for the operation has been exceeded."
      else if String.eqb kind "TIMEOUT" then
        MultiAuthException "The operation timed out."
      else if String.eqb kind "FILTER_ERROR" then
        Std (ValueError ("The filter supplied to the operation is invalid. " +:+
                         "(This is most likely due to a bad user or group filter."))
      else e
  | _ => e
  end.

(** [with ldap_context(settings) as ldap_ctx: body(ldap_ctx)] *)
Definition ldap_context {A : Type} (settings : connection_settings)
    (body : frame → ldap_state → ldap_state * outcome A) (st : ldap_state)
    : ldap_state * outcome A :=
  let connected := ldap_connect settings st in
  match connected.2 with
  | Raises e => (connected.1, Raises (translate_ldap_error e))
  | Returns connection =>
      let st := connected.1 in
      let ldap_ctx := {| frame_id := next_id st; frame_connection := connection;
                         frame_settings := settings |} in
      let st := {| app_ctx := app_ctx st; frames := ldap_ctx :: frames st;
                   next_id := S (next_id st); calls := calls st |} in
      let ran := body ldap_ctx st in
      let st := ran.1 in
      let popped := head (frames st) in
      let st := {| app_ctx := app_ctx st; frames := tail (frames st);
                   next_id := next_id st; calls := calls st |} in
      let result :=
        match popped with
        | Some top =>
            if bool_decide (frame_id top = frame_id ldap_ctx) then ran.2
            else Raises (Std (AssertionError "Popped wrong LDAP context"))
        | None => Raises (Std (AssertionError "Popped wrong LDAP context"))
        end in
      (st, match result with
           | Returns a => Returns a
           | Raises e => Raises (translate_ldap_error e)
           end)
  end.

(** [_clear_ldap_cache]: the connections on which [unbind_s] was called, and
    the exception that ends the loop, if any. *)
Fixpoint unbind_all (connections : list Conn) : list Conn * option exc :=
  match connections with
  | [] => ([], None)
  | conn :: connections =>
      match unbind_s conn with
      | Some (Std (LDAPError _)) | None =>
          let rest := unbind_all connections in (conn :: rest.1, rest.2)
      | Some e => ([conn], Some e)
      end
  end.

Definition _clear_ldap_cache (_multiauth_ldap_connections : option (gmap cache_key Conn))
    : list Conn * option exc :=
  unbind_all (snd <$> map_to_list (default ∅ _multiauth_ldap_connections)).
End connections.

(** A directory server reached over plain LDAP with StartTLS, a library in
    which no call fails, and connections named by their URI. *)
Definition example_settings : connection_settings :=
  {| uri := "ldap://ldap.example.org"; bind_dn := "cn=reader,dc=example";
     bind_password := "secret"; tls := true; starttls := true;
     other_settings := {[ "timeout" := VStr "30" ]} |}.

(** The same server for a provider with another timeout. *)
Definition example_settings_slow : connection_settings :=
  {| uri := "ldap://ldap.example.org"; bind_dn := "cn=reader,dc=example";
     bind_password := "secret"; tls := true; starttls := true;
     other_settings := {[ "timeout" := VStr "120" ]} |}.

Definition example_scheme (uri : string) : string :=
  if String.prefix "ldaps://" uri then "ldaps" else "ldap".

Definition example_perform (call : ldap_call) : option exc := None.

Definition example_hash (text : string) : Z := Z.of_nat (String.length text).

Definition example_ldap_state : ldap_state (Conn := string) :=
  {| app_ctx := AppContext None; frames := []; next_id := 0; calls := [] |}.

(** The decorated [ldap_connect] in this environment, and a function that
    fails in its place. *)
Definition example_connect (settings : connection_settings)
    : list ldap_call * outcome string :=
  ldap_connect_uncached example_scheme example_perform (λ uri, uri) settings.

Definition example_unreachable (settings : connection_settings)
    : list ldap_call * outcome string :=
  ([initialize (uri settings)], Raises (Std (LDAPError "SERVER_DOWN"))).

(** A body that keeps the stack and fails with an LDAP error that
    [ldap_context] does not handle, and one that returns the DN it binds
    with. *)
Definition example_body_fails (ldap_ctx : frame (Conn := string))
    (st : ldap_state (Conn := string)) : ldap_state * outcome string :=
  (st, Raises (Std (LDAPError "NO_SUCH_OBJECT"))).

Definition example_body (ldap_ctx : frame (Conn := string))
    (st : ldap_state (Conn := string)) : ldap_state * outcome string :=
  (st, Returns (bind_dn (frame_settings ldap_ctx))).

(** ** [MultiAuth.init_app] *)

(** The options that [init_app] reads, [None] when the application does not
    set them. [MULTIAUTH_LOGIN_URLS] may be set to [None]. *)
Record flask_config : Type := {
  config_auth_providers : option (gmap string config_entry);
  config_user_providers : option (gmap string config_entry);
  config_provider_map : option (gmap string raw_links);
  config_login_endpoint : option string;
  config_login_urls : option (option (list string))
}.

(** The application: its extension ['multiauth'] when it has one, its
    options and the URL rules added to it, each with its endpoint. *)
Record flask_app : Type := {
  extension : option _MultiAuthState;
  app_settings : flask_config;
  url_rules : list (string * string)
}.

(** The calls of [app.config.setdefault]. *)
Definition with_defaults (cfg : flask_config) : flask_config :=
  {| config_auth_providers := Some (default ∅ (config_auth_providers cfg));
     config_user_providers := Some (default ∅ (config_user_providers cfg));
     config_provider_map := Some (default ∅ (config_provider_map cfg));
     config_login_endpoint := Some (default "login" (config_login_endpoint cfg));
     config_login_urls :=
       Some (default (Some ["/login/"; "/login/<provider>"]) (config_login_urls cfg)) |}.

(** [_create_login_rule]: the rules it adds, each with the endpoint;
    [add_url_rule] is taken to accept them. *)
Definition _create_login_rule (cfg : flask_config) : list (string * string) :=
  let endpoint := default "login" (config_login_endpoint cfg) in
  match mjoin (config_login_urls cfg) with
  | None => []
  | Some rules => (λ rule, (rule, endpoint)) <$> rules
  end.

(** [init_app]: the application after it, with the state object as the
    assignments reached have filled it, and the result. *)
Definition init_app (iter_entry_points : provider_base → string → list entry_point)
    (app : flask_app) : flask_app * result unit :=
  match extension app with
  | Some _ => (app, Raise (RuntimeError "Flask application already initialized"))
  | None =>
      let cfg := with_defaults (app_settings app) in
      let after state :=
        {| extension := Some state; app_settings := cfg;
           url_rules := url_rules app ++ _create_login_rule cfg |} in
      match _create_providers iter_entry_points
                              (default ∅ (config_auth_providers cfg)) AuthProvider with
      | Raise e => (after new_state, Raise e)
      | Ok auth =>
          match _create_providers iter_entry_points
                                  (default ∅ (config_user_providers cfg)) UserProvider with
          | Raise e =>
              (after {| auth_providers := auth; user_providers := ∅;
                        provider_map := ∅; identity_providers := None |}, Raise e)
          | Ok user =>
              let state :=
                {| auth_providers := auth; user_providers := user;
                   provider_map :=
                     get_canonical_provider_map (default ∅ (config_provider_map cfg));
                   identity_providers := None |} in
              (after state, validate_provider_map state)
          end
      end
  end.

(** ** [flask_multiauth.util.SupportsMeta] *)

(** A key of [__support_attrs__]: the name of a class attribute, or a tuple
    of a function of the class and a message. *)
Inductive support_attr (C : Type) : Type :=
  | AttrName (attr : string)
  | AttrCallable (func : C → bool) (message : string).
Arguments AttrName {C} attr.
Arguments AttrCallable {C} func message.

(** The class that is being created: its name, the attributes that it or
    its bases below the root define, and the methods that differ from those
    of the root. *)
Record class_desc : Type := {
  class_name : string;
  class_attrs : gmap string bool;
  class_overrides : gset string
}.

(** The root class of the hierarchy: its attributes, its methods and the
    items of its [__support_attrs__], a single method name being a list of
    one. *)
Record root_desc : Type := {
  root_attrs : gmap string bool;
  root_methods : gset string;
  support_attrs : list (support_attr class_desc * list string)
}.

(** [getattr(cls, attr, getattr(base, attr))]: the default is evaluated
    first. *)
Definition getattr_supported (base : root_desc) (cls : class_desc) (attr : string)
    : result bool :=
  match root_attrs base !! attr with
  | None => Raise (AttributeError attr)
  | Some inherited => Ok (default inherited (class_attrs cls !! attr))
  end.

(** The inner loop, over the methods of one item. *)
Fixpoint check_methods (base : root_desc) (cls : class_desc) (supported : bool)
    (message : string) (methods : list string) : result unit :=
  match methods with
  | [] => Ok ()
  | method :: methods =>
      if negb (bool_decide (method ∈ root_methods base)) then
        Raise (AttributeError method)
      else
        let is_overridden := bool_decide (method ∈ class_overrides cls) in
        if negb supported && is_overridden then
          Raise (TypeError (class_name cls +:+ " cannot override " +:+ method +:+
                            " unless " +:+ message))
        else if supported && negb is_overridden then
          Raise (TypeError (class_name cls +:+ " must override " +:+ method +:+
                            " if " +:+ message))
        else check_methods base cls supported message methods
  end.

(** The outer loop, over the items of [__support_attrs__]. *)
Fixpoint check_support_attrs (base : root_desc) (cls : class_desc)
    (items : list (support_attr class_desc * list string)) : result unit :=
  match items with
  | [] => Ok ()
  | (attr, methods) :: items =>
      checked ←
        match attr with
        | AttrCallable func message => check_methods base cls (func cls) message methods
        | AttrName attr =>
            supported ← getattr_supported base cls attr;
            check_methods base cls supported (attr +:+ " is True") methods
        end;
      check_support_attrs base cls items
  end.

(** [SupportsMeta.__new__], for a class whose root class is [base]; the
    root class itself, which has none, is created without a check. *)
Definition SupportsMeta_new (base : option root_desc) (cls : class_desc) : result unit :=
  match base with
  | None => Ok ()
  | Some base => check_support_attrs base cls (support_attrs base)
  end.

(** Whether [cls] supports what the key [attr] stands for. *)
Definition supports (base : root_desc) (cls : class_desc)
    (attr : support_attr class_desc) : bool :=
  match attr with
  | AttrCallable func _ => func cls
  | AttrName attr =>
      default (default false (root_attrs base !! attr)) (class_attrs cls !! attr)
  end.

(** The keys and methods of [__support_attrs__] exist in the root class. *)
Definition well_formed_root (base : root_desc) : Prop :=
  Forall (λ item : support_attr class_desc * list string,
            match item.1 with
            | AttrName attr => is_Some (root_attrs base !! attr)
            | AttrCallable _ _ => True
            end ∧
            Forall (λ method, method ∈ root_methods base) item.2)
         (support_attrs base).

(** An application that sets none of the options. *)
Definition example_app : flask_app :=
  {| extension := None;
     app_settings := {| config_auth_providers := None; config_user_providers := None;
                        config_provider_map := None; config_login_endpoint := None;
                        config_login_urls := None |};
     url_rules := [] |}.

(** A root class with two optional features, and a class that supports and
    implements the first of them. *)
Definition example_root : root_desc :=
  {| root_attrs := {[ "supports_refresh" := false; "supports_search" := false ]};
     root_methods := {[ "refresh_user"; "search_users" ]};
     support_attrs := [ (AttrName "supports_refresh", ["refresh_user"]);
                        (AttrName "supports_search", ["search_users"]) ] |}.

Definition example_class : class_desc :=
  {| class_name := "LDAPProvider";
     class_attrs := {[ "supports_refresh" := true ]};
     class_overrides := {[ "refresh_user" ]} |}.

(* ===================================================================== *)
(** * Properties *)
(* ===================================================================== *)

(** ** Facts about dict updates *)

Section dict_facts.
Context {A : Type}.
Implicit Types (d : gmap string A) (items : list (string * A)).

Lemma dict_update_lookup items d k :
  NoDup items.*1 →
  dict_update d items !! k =
    match (list_to_map items : gmap string A) !! k with
    | Some v => Some v
    | None => d !! k
    end.
Proof.
  revert d. induction items as [|[k0 v0] items IH]; intros d Hnd; simpl.
  - by rewrite lookup_empty.
  - apply NoDup_cons in Hnd as [Hk0 Hnd].
    unfold dict_update in *. simpl. rewrite IH by done.
    destruct (decide (k0 = k)) as [->|Hne].
    + rewrite lookup_insert_eq.
      by rewrite (not_elem_of_list_to_map_1 _ _ Hk0), lookup_insert_eq.
    + rewrite !(lookup_insert_ne _ k0 k) by done. done.
Qed.

Lemma dict_update_iteritems d (d' : gmap string A) k :
  dict_update d (iteritems d') !! k =
    match d' !! k with Some v => Some v | None => d !! k end.
Proof.
  unfold iteritems. rewrite dict_update_lookup by apply NoDup_fst_map_to_list.
  by rewrite list_to_map_to_list.
Qed.
End dict_facts.

Lemma dict_update_mapped {A B : Type} (g : B → A) (d : gmap string A)
    (m : gmap string B) k :
  dict_update d ((λ ts : string * B, (ts.1, g ts.2)) <$> iteritems m) !! k =
    match m !! k with Some s => Some (g s) | None => d !! k end.
Proof.
  unfold iteritems.
  assert (Hfst : ((λ ts : string * B, (ts.1, g ts.2)) <$> map_to_list m).*1
                 = (map_to_list m).*1).
  { rewrite <- list_fmap_compose. by apply list_fmap_ext. }
  rewrite dict_update_lookup by (rewrite Hfst; apply NoDup_fst_map_to_list).
  change (λ ts : string * B, (ts.1, g ts.2)) with (prod_map (@id string) g).
  rewrite list_to_map_fmap, list_to_map_to_list, lookup_fmap.
  by destruct (m !! k).
Qed.

(** ** The attribute mapper, [convert_data] *)

Lemma elem_of_mapped_keys mapping k :
  k ∈ mapped_keys mapping ↔ ∃ t, mapping !! t = Some k.
Proof.
  unfold mapped_keys, iteritems. rewrite elem_of_list_to_set, list_elem_of_fmap.
  split.
  - intros [[t s] [-> Hin]]. exists t. by apply elem_of_map_to_list.
  - intros [t Ht]. exists (t, k). split; [done|]. by apply elem_of_map_to_list.
Qed.

(** Without a key list: targets of the mapping read their source, sources
    disappear, every other key of [data] passes through. *)
Lemma convert_data_all_lookup data mapping k :
  convert_data data mapping None !! k =
    match mapping !! k with
    | Some s => Some (dict_get data s)
    | None => if decide (k ∈ mapped_keys mapping) then None else data !! k
    end.
Proof.
  unfold convert_data.
  rewrite (dict_update_mapped (dict_get data)).
  destruct (mapping !! k) as [s|]; [done|].
  case_decide as Hk.
  - apply map_lookup_filter_None. right. intros v _. simpl. by intros [].
  - destruct (data !! k) as [v|] eqn:Hd.
    + by apply map_lookup_filter_Some.
    + apply map_lookup_filter_None. by left.
Qed.

(** With a key list: exactly the listed keys, [None] where nothing was
    produced. *)
Lemma convert_data_keys_lookup data mapping keys k :
  convert_data data mapping (Some keys) !! k =
    if decide (k ∈ keys)
    then Some (default VNone (convert_data data mapping None !! k))
    else None.
Proof.
  unfold convert_data at 1.
  change (dict_update _ ((λ ts : string * string, _) <$> iteritems mapping))
    with (convert_data data mapping None).
  set (r := convert_data data mapping None).
  set (ks := (list_to_set keys : gset string)).
  set (r' := filter (λ kv : string * value, kv.1 ∈ ks) r).
  rewrite dict_update_iteritems, lookup_gset_to_gmap.
  assert (Hr' : r' !! k = if decide (k ∈ keys) then r !! k else None).
  { subst r'. case_decide as Hk.
    - destruct (r !! k) as [v|] eqn:Hrk.
      + apply map_lookup_filter_Some. split; [done|]. simpl. subst ks. set_solver.
      + apply map_lookup_filter_None. by left.
    - apply map_lookup_filter_None. right. intros v _. simpl. subst ks. set_solver. }
  destruct (decide (k ∈ keys)) as [Hk|Hk].
  - destruct (r !! k) as [v|] eqn:Hrk.
    + rewrite option_guard_False.
      * simpl. by rewrite Hr'.
      * rewrite elem_of_difference, elem_of_dom, Hr'. intros [_ []]. eauto.
    + rewrite option_guard_True; [done|].
      rewrite elem_of_difference, elem_of_dom, Hr'. split.
      * subst ks. set_solver.
      * by intros [? ?].
  - rewrite option_guard_False; [by rewrite Hr'|].
    rewrite elem_of_difference. intros [Hin _]. subst ks. set_solver.
Qed.

(** C4. With an allowed-key list, the result of the attribute mapper has
    exactly the allowed keys. An allowed key that is a target of the
    mapping holds the value of its source key in the input record; an
    allowed key of the record that is neither a target nor a source passes
    through; every other allowed key is present with [None]. On the record
    [{uid: jdoe, mail: j@x.com}] with the mapping [{id: uid}] and the allowed
    keys [id, mail, extra] the result is
    [{id: jdoe, mail: j@x.com, extra: None}]. *)
Theorem convert_data_allowed_keys (data : dict) (mapping : gmap string string)
    (keys : list string) :
  let r := convert_data data mapping (Some keys) in
  dom r = list_to_set keys ∧
  (∀ t s, t ∈ keys → mapping !! t = Some s → r !! t = Some (dict_get data s)) ∧
  (∀ k v, k ∈ keys → mapping !! k = None → k ∉ mapped_keys mapping →
          data !! k = Some v → r !! k = Some v) ∧
  (∀ k, k ∈ keys → mapping !! k = None →
        k ∈ mapped_keys mapping ∨ data !! k = None → r !! k = Some VNone) ∧
  convert_data {[ "uid" := VStr "jdoe"; "mail" := VStr "j@x.com" ]}
               {[ "id" := "uid" ]} (Some ["id"; "mail"; "extra"])
    = {[ "id" := VStr "jdoe"; "mail" := VStr "j@x.com"; "extra" := VNone ]}.
Proof.
  intros r. subst r. split; [|split; [|split; [|split]]].
  - apply set_eq. intros k. rewrite elem_of_dom, convert_data_keys_lookup.
    rewrite elem_of_list_to_set. case_decide as Hk; split.
    + done.
    + by eauto.
    + by intros [? ?].
    + done.
  - intros t s Ht Hm. rewrite convert_data_keys_lookup, decide_True by done.
    by rewrite convert_data_all_lookup, Hm.
  - intros k v Hk Hm Hsrc Hd.
    rewrite convert_data_keys_lookup, decide_True by done.
    by rewrite convert_data_all_lookup, Hm, decide_False, Hd.
  - intros k Hk Hm Hcase.
    rewrite convert_data_keys_lookup, decide_True by done.
    rewrite convert_data_all_lookup, Hm.
    case_decide; [done|]. destruct Hcase as [? | ->]; done.
  - by vm_compute.
Qed.

Lemma convert_data_allowed_keys_witness :
  convert_data {[ "uid" := VStr "jdoe" ]} {[ "id" := "uid" ]} (Some ["id"; "uid"; "extra"])
    !! "id" = Some (VStr "jdoe") ∧
  convert_data {[ "uid" := VStr "jdoe" ]} {[ "id" := "uid" ]} (Some ["id"; "uid"; "extra"])
    !! "uid" = Some VNone.
Proof.
  pose proof (convert_data_allowed_keys {[ "uid" := VStr "jdoe" ]} {[ "id" := "uid" ]}
                ["id"; "uid"; "extra"]) as (_ & Htarget & _ & Hnone & _).
  split.
  - apply (Htarget "id" "uid"); [compute_done | reflexivity].
  - apply (Hnone "uid");
      [compute_done | reflexivity |].
    left. compute_done.
Defined.

(** C10. Without a key list: a key that is both in the record and a target
    of the mapping holds the mapped source value ([None] when the source key
    is not in the record) instead of its own value, and a key of the record
    that is a source of the mapping is absent from the result unless it is
    itself a target. *)
Theorem convert_data_target_overrides (data : dict) (mapping : gmap string string) :
  (∀ k s, k ∈ dom data → mapping !! k = Some s →
          convert_data data mapping None !! k = Some (dict_get data s) ∧
          (data !! s = None → convert_data data mapping None !! k = Some VNone)) ∧
  (∀ k, k ∈ dom data → k ∈ mapped_keys mapping → mapping !! k = None →
        convert_data data mapping None !! k = None).
Proof.
  split.
  - intros k s _ Hm. rewrite convert_data_all_lookup, Hm. split; [done|].
    intros Hs. unfold dict_get. by rewrite Hs.
  - intros k _ Hsrc Hm. by rewrite convert_data_all_lookup, Hm, decide_True.
Qed.

Lemma convert_data_target_overrides_witness :
  convert_data {[ "id" := VStr "old"; "uid" := VStr "jdoe" ]} {[ "id" := "uid" ]} None
    !! "id" = Some (VStr "jdoe") ∧
  convert_data {[ "id" := VStr "old"; "uid" := VStr "jdoe" ]} {[ "id" := "uid" ]} None
    !! "uid" = None.
Proof.
  pose proof (convert_data_target_overrides
                {[ "id" := VStr "old"; "uid" := VStr "jdoe" ]} {[ "id" := "uid" ]})
    as [Htarget Hsource].
  split.
  - apply (Htarget "id" "uid"); [compute_done | reflexivity].
  - apply (Hsource "uid");
      [compute_done
      |compute_done | reflexivity].
Defined.

(** ** The canonical provider map *)

Lemma get_canonical_provider_map_lookup (provider_map : gmap string raw_links)
    (auth_provider_name : string) :
  get_canonical_provider_map provider_map !! auth_provider_name =
    canonical_links <$> provider_map !! auth_provider_name.
Proof.
  unfold get_canonical_provider_map.
  pose proof (dict_update_mapped canonical_links ∅ provider_map auth_provider_name)
    as Hupd.
  unfold dict_update in Hupd. rewrite foldl_fmap in Hupd. simpl in Hupd.
  rewrite Hupd. destruct (provider_map !! auth_provider_name); [done|].
  apply lookup_empty.
Qed.

(** C5. Normalization turns every configured value into a sequence of
    link-objects, one per configured element and in the same order: a bare
    string becomes the link-object that names this identity provider and
    holds no mapping, so that its field mapping reads as the empty one; a
    link-object is kept as it is. A single value counts as a sequence of one
    element. *)
Theorem get_canonical_provider_map_normalizes (provider_map : gmap string raw_links)
    (auth_provider_name : string) (identity_providers : raw_links) :
  provider_map !! auth_provider_name = Some identity_providers →
  ∃ links,
    get_canonical_provider_map provider_map !! auth_provider_name = Some links ∧
    length links = length (configured_entries identity_providers) ∧
    ∀ i p, configured_entries identity_providers !! i = Some p →
      ∃ l, links !! i = Some l ∧
           match p with
           | EntryName n =>
               l = {| link_identity_provider := Some n;
                      link_user_provider := None;
                      link_mapping := None |} ∧
               link_get_mapping l = ∅
           | EntryLink p => l = p
           end.
Proof.
  intros Hv. exists (canonical_links identity_providers).
  rewrite get_canonical_provider_map_lookup, Hv. split; [done|].
  assert (Heq : canonical_links identity_providers =
                canonical_link <$> configured_entries identity_providers)
    by (by destruct identity_providers).
  rewrite Heq. split; [by rewrite length_fmap|].
  intros i p Hp. exists (canonical_link p). split.
  - by rewrite list_lookup_fmap, Hp.
  - by destruct p.
Qed.

Lemma get_canonical_provider_map_normalizes_witness :
  ∃ links,
    get_canonical_provider_map example_raw_map !! "ldap-auth" = Some links ∧
    links !! 0 = Some (Link (Some "ldap") None None) ∧
    links !! 1 = Some (Link (Some "sso") None (Some {[ "id" := "uid" ]})).
Proof.
  destruct (get_canonical_provider_map_normalizes example_raw_map "ldap-auth"
              (Sequence ListType [EntryName "ldap";
                         EntryLink (Link (Some "sso") None (Some {[ "id" := "uid" ]}))]))
    as (links & Hlinks & _ & Hat); [reflexivity|].
  exists links. split; [exact Hlinks|]. split.
  - destruct (Hat 0 _ eq_refl) as (l & Hl & -> & _). exact Hl.
  - destruct (Hat 1 _ eq_refl) as (l & Hl & ->). exact Hl.
Defined.

(** ** Validation of the provider map *)

Lemma traverse_getitem_identity_provider (ls : list link) :
  Forall (λ l, is_Some (link_identity_provider l)) ls →
  ∃ names, traverse getitem_identity_provider ls = Ok names ∧
           ∀ x, x ∈ names ↔ ∃ l, l ∈ ls ∧ link_identity_provider l = Some x.
Proof.
  induction 1 as [|l ls [n Hn] _ (names & Hnames & Hiff)].
  - exists []. split; [done|]. intros x. split.
    + by intros ?%elem_of_nil.
    + by intros (l & ?%elem_of_nil & _).
  - exists (n :: names). split.
    + cbn [traverse]. rewrite Hnames.
      unfold getitem_identity_provider. by rewrite Hn.
    + intros x. rewrite elem_of_cons, Hiff. split.
      * intros [->|(l' & Hl' & Hx)].
        -- exists l. split; [apply list_elem_of_here|done].
        -- exists l'. split; [by apply list_elem_of_further|done].
      * intros (l' & [->|Hl']%elem_of_cons & Hx).
        -- left. congruence.
        -- right. by exists l'.
Qed.

Lemma elem_of_provider_map_links (pm : gmap string (list link)) (l : link) :
  l ∈ mjoin (snd <$> iteritems pm) ↔ ∃ a links, pm !! a = Some links ∧ l ∈ links.
Proof.
  unfold iteritems. rewrite list_elem_of_join. split.
  - intros (links & Hl & ([a links'] & -> & Hin)%list_elem_of_fmap).
    exists a, links'. split; [by apply elem_of_map_to_list|done].
  - intros (a & links & Hpm & Hl). exists links. split; [done|].
    apply list_elem_of_fmap. exists (a, links). split; [done|].
    by apply elem_of_map_to_list.
Qed.

Lemma targeted_providers_ok (state : _MultiAuthState) :
  map_Forall (λ _ links, Forall (λ l, is_Some (link_identity_provider l)) links)
             (provider_map state) →
  ∃ T, targeted_providers (provider_map state) = Ok T ∧
       ∀ x, x ∈ T ↔ targeted state x.
Proof.
  intros Hall. unfold targeted_providers.
  destruct (traverse_getitem_identity_provider
              (mjoin (snd <$> iteritems (provider_map state))))
    as (names & Hnames & Hiff).
  { apply Forall_forall. intros l (a & links & Hpm & Hl)%elem_of_provider_map_links.
    specialize (Hall a links Hpm). simpl in Hall.
    by eapply Forall_forall in Hall. }
  exists (list_to_set names). rewrite Hnames. split; [done|].
  intros x. rewrite elem_of_list_to_set, Hiff. unfold targeted. split.
  - intros (l & (a & links & Hpm & Hl)%elem_of_provider_map_links & Hx).
    by exists a, links, l.
  - intros (a & links & l & Hpm & Hl & Hx). exists l. split; [|done].
    apply elem_of_provider_map_links. by exists a, links.
Qed.

(** C1, as the code has it. The validation stops at the first category of
    problems. When some registered auth provider is absent from the provider
    map, it fails with one error that lists every such name, each once, and
    says nothing of the identity providers. When every auth provider is
    linked, every link names an identity provider and the state holds the
    registry of identity providers, it fails with one error that lists every
    targeted name that is not registered, each once, and succeeds when there
    is none. *)
Theorem validate_provider_map_fail_fast (state : _MultiAuthState) :
  (dom (auth_providers state) ∖ dom (provider_map state) ≠ ∅ →
   ∃ names,
     validate_provider_map state =
       Raise (ValueError ("Auth providers not linked to identity providers: " +:+
                          String.concat ", " names)) ∧
     NoDup names ∧ ∀ a, a ∈ names ↔ unlinked state a) ∧
  (dom (auth_providers state) ⊆ dom (provider_map state) →
   map_Forall (λ _ links, Forall (λ l, is_Some (link_identity_provider l)) links)
              (provider_map state) →
   ∀ registry, identity_providers state = Some registry →
     ((∃ x, broken state registry x) →
      ∃ names,
        validate_provider_map state =
          Raise (ValueError ("Broken identity provider links: " +:+
                             String.concat ", " names)) ∧
        NoDup names ∧ ∀ x, x ∈ names ↔ broken state registry x) ∧
     ((∀ x, targeted state x → x ∈ dom registry) →
      validate_provider_map state = Ok ())).
Proof.
  split.
  - intros Hne. exists (elements (dom (auth_providers state) ∖ dom (provider_map state))).
    split; [|split].
    + unfold validate_provider_map. by rewrite bool_decide_eq_true_2.
    + apply NoDup_elements.
    + intros a. rewrite elem_of_elements, elem_of_difference. done.
  - intros Hsub Hall registry Hreg.
    destruct (targeted_providers_ok state Hall) as (T & HT & HTiff).
    assert (Hval : validate_provider_map state =
                   if bool_decide (T ∖ dom registry ≠ ∅) then
                     Raise (ValueError ("Broken identity provider links: " +:+
                                        join_keys (T ∖ dom registry)))
                   else Ok ()).
    { unfold validate_provider_map. rewrite bool_decide_eq_false_2.
      - rewrite HT. simpl. unfold getattr_identity_providers. by rewrite Hreg.
      - intros Hne. apply Hne. by apply subseteq_empty_difference_L. }
    assert (Hbroken : ∀ x, x ∈ T ∖ dom registry ↔ broken state registry x).
    { intros x. rewrite elem_of_difference, HTiff. done. }
    split.
    + intros [x Hx]. exists (elements (T ∖ dom registry)). split; [|split].
      * rewrite Hval, bool_decide_eq_true_2; [done|].
        apply Hbroken in Hx. intros Hempty. rewrite Hempty in Hx.
        by apply not_elem_of_empty in Hx.
      * apply NoDup_elements.
      * intros y. by rewrite elem_of_elements.
    + intros Hreg_all. rewrite Hval, bool_decide_eq_false_2; [done|].
      intros Hne. apply Hne. apply set_eq. intros x.
      rewrite Hbroken. split; [|by intros ?%not_elem_of_empty].
      intros [Ht Hn]. destruct Hn. by apply Hreg_all.
Qed.

Lemma validate_provider_map_fail_fast_witness :
  (∃ names,
     validate_provider_map example_state =
       Raise (ValueError ("Auth providers not linked to identity providers: " +:+
                          String.concat ", " names)) ∧
     NoDup names ∧ ∀ a, a ∈ names ↔ unlinked example_state a) ∧
  (∃ names,
     validate_provider_map example_state_linked =
       Raise (ValueError ("Broken identity provider links: " +:+
                          String.concat ", " names)) ∧
     NoDup names ∧ ∀ x, x ∈ names ↔ broken example_state_linked ∅ x).
Proof.
  split.
  - apply (proj1 (validate_provider_map_fail_fast example_state)). compute_done.
  - apply (proj2 (validate_provider_map_fail_fast example_state_linked));
      [compute_done | compute_done | reflexivity |].
    exists "x". split.
    + exists "a", [Link (Some "x") None None], (Link (Some "x") None None).
      split; [reflexivity|]. split; [apply list_elem_of_here | reflexivity].
    + compute_done.
Defined.

(** C1, as the specification words it, fails: on the provider map [{a: [x]}]
    with the auth providers [a] and [b] and no identity provider, the error
    names [b] and does not name [x]. *)
Lemma validate_provider_map_reports_one_category :
  validate_provider_map example_state =
    Raise (ValueError "Auth providers not linked to identity providers: b") ∧
  unlinked example_state "b" ∧
  broken example_state ∅ "x" ∧
  ¬ reports_everything example_state ∅.
Proof.
  assert (Hb : broken example_state ∅ "x").
  { split; [|compute_done].
    exists "a", [Link (Some "x") None None], (Link (Some "x") None None).
    split; [reflexivity|]. split; [apply list_elem_of_here | reflexivity]. }
  split; [by vm_compute|]. split; [split; compute_done|]. split; [done|].
  intros (msg & Hmsg & _ & Hx). specialize (Hx "x" Hb).
  vm_compute in Hmsg. injection Hmsg as <-. by vm_compute in Hx.
Qed.

(** On the state that [_MultiAuthState.__init__] builds, and on every state
    without the attribute [identity_providers] whose auth providers are all
    linked and whose links all name an identity provider, the second check
    is not reached: reading the attribute fails. *)
Remark validate_provider_map_new_state :
  validate_provider_map new_state = Raise (AttributeError "identity_providers").
Proof. by vm_compute. Qed.

(** ** The provider registry, [_create_providers] *)

Section create_providers_facts.
Variable iter_entry_points : provider_base → string → list entry_point.
Variable base : provider_base.

Abbreviation class_of := (entry_class iter_entry_points base).
Abbreviation loop := (create_providers_loop iter_entry_points base).

Abbreviation refused := (refused iter_entry_points base).

Lemma create_providers_loop_step n s items providers types :
  loop ((n, s) :: items) providers types =
    cls ← class_of s;
    if negb (multi_instance cls) && bool_decide (type cls ∈ types)
    then Raise (duplicate_error cls)
    else loop items (<[n := instance_of cls n s]> providers)
                               ({[type cls]} ∪ types).
Proof.
  unfold entry_class. simpl.
  destruct s as [[type_|] rest]; simpl; [|done].
  by destruct (resolve_provider_type iter_entry_points base type_ None).
Qed.

Lemma create_providers_loop_refuses items : ∀ providers types,
  Forall (λ item, ∃ cls, class_of item.2 = Ok cls) items →
  (∃ pre cls, refused types items pre cls) →
  ∃ pre cls, refused types items pre cls ∧
             loop items providers types = Raise (duplicate_error cls).
Proof.
  induction items as [|[n1 s1] items IH]; intros providers types Hres Hdup.
  { destruct Hdup as (pre & cls & n & s & post & Heq & _).
    by destruct pre. }
  apply Forall_cons in Hres as [[c1 Hc1] Hres]. simpl in Hc1.
  rewrite create_providers_loop_step, Hc1. simpl.
  destruct (negb (multi_instance c1) && bool_decide (type c1 ∈ types)) eqn:Hcheck.
  - apply andb_true_iff in Hcheck as [Hmulti Hin].
    apply negb_true_iff in Hmulti. apply bool_decide_eq_true in Hin.
    exists [], c1. split; [|done]. exists n1, s1, items. eauto.
  - destruct (IH (<[n1 := instance_of c1 n1 s1]> providers) ({[type c1]} ∪ types) Hres)
      as (pre' & cls' & (n & s & post & Heq & Hcls & Hmulti & Hseen) & Hraise).
    + destruct Hdup as (pre & cls & n & s & post & Heq & Hcls & Hmulti & Hseen).
      destruct pre as [|item pre]; simplify_eq/=.
      * exfalso. assert (cls = c1) as -> by congruence.
        rewrite Hmulti in Hcheck. simpl in Hcheck.
        apply bool_decide_eq_false in Hcheck.
        destruct Hseen as [?|(? & ? & ? & ?%elem_of_nil & _)]; done.
      * exists pre, cls, n, s, post. repeat split; [done..|].
        destruct Hseen as [Hin|(n0 & s0 & c0 & Hin & Hc0 & Htype)].
        -- left. apply elem_of_union. by right.
        -- apply elem_of_cons in Hin as [Heq|Hin].
           ++ simplify_eq. left. apply elem_of_union. left.
              apply elem_of_singleton. congruence.
           ++ right. by exists n0, s0, c0.
    + exists ((n1, s1) :: pre'), cls'. split; [|done].
      exists n, s, post. subst items. repeat split; [done..|].
      destruct Hseen as [[Hin|Hin]%elem_of_union|(n0 & s0 & c0 & Hin & Hc0 & Htype)].
      * apply elem_of_singleton in Hin. right. exists n1, s1, c1.
        split; [apply list_elem_of_here|done].
      * by left.
      * right. exists n0, s0, c0. split; [by apply list_elem_of_further|done].
Qed.

Lemma create_providers_loop_accepts items : ∀ providers types,
  NoDup items.*1 →
  Forall (λ item, ∃ cls, class_of item.2 = Ok cls) items →
  (∀ pre cls, ¬ refused types items pre cls) →
  ∃ result,
    loop items providers types = Ok result ∧
    (∀ n s cls, (n, s) ∈ items → class_of s = Ok cls →
                result !! n = Some (instance_of cls n s)) ∧
    (∀ n, n ∉ items.*1 → result !! n = providers !! n).
Proof.
  induction items as [|[n1 s1] items IH]; intros providers types Hnd Hres Hok.
  { exists providers. split; [done|]. split; [|done].
    by intros n s cls ?%elem_of_nil. }
  apply Forall_cons in Hres as [[c1 Hc1] Hres]. simpl in Hc1.
  rewrite fmap_cons in Hnd. apply NoDup_cons in Hnd as [Hn1 Hnd]. simpl in Hn1.
  rewrite create_providers_loop_step, Hc1. simpl.
  destruct (negb (multi_instance c1) && bool_decide (type c1 ∈ types)) eqn:Hcheck.
  { apply andb_true_iff in Hcheck as [Hmulti Hin].
    apply negb_true_iff in Hmulti. apply bool_decide_eq_true in Hin.
    destruct (Hok [] c1). exists n1, s1, items. eauto. }
  destruct (IH (<[n1 := instance_of c1 n1 s1]> providers) ({[type c1]} ∪ types) Hnd Hres)
    as (result & Hresult & Hin & Hout).
  - intros pre cls (n & s & post & Heq & Hcls & Hmulti & Hseen).
    apply (Hok ((n1, s1) :: pre) cls). exists n, s, post. subst items.
    repeat split; [done..|].
    destruct Hseen as [[Hin|Hin]%elem_of_union|(n0 & s0 & c0 & Hin & Hc0 & Htype)].
    + apply elem_of_singleton in Hin. right. exists n1, s1, c1.
      split; [apply list_elem_of_here|done].
    + by left.
    + right. exists n0, s0, c0. split; [by apply list_elem_of_further|done].
  - exists result. split; [done|]. split.
    + intros n s cls [Heq|Hmem]%elem_of_cons Hcls.
      * simplify_eq. assert (cls = c1) as -> by congruence.
        rewrite Hout by done. apply lookup_insert_eq.
      * by apply Hin.
    + intros n Hn.
      apply not_elem_of_cons in Hn as [Hne Hn]. simpl in Hne.
      rewrite Hout by done. by apply lookup_insert_ne.
Qed.
End create_providers_facts.

Section create_providers.
Variable iter_entry_points : provider_base → string → list entry_point.
Variable base : provider_base.

Abbreviation class_of' := (entry_class iter_entry_points base).

(** C6. Take a configuration whose entries all resolve to a class. If two
    entries resolve to the same class and this class does not allow
    several instances, the creation fails with the error that names the
    type of a class refused for this reason: a class that does not allow
    several instances and whose type another entry has too. If no type
    shared by two entries belongs to a class that does not allow several
    instances, the creation succeeds and the result holds, under each
    configured name, the instance of its class built from the name and
    the settings without their ['type'] key; so two instances of a type
    that allows it are both there. *)
Theorem create_providers_multi_instance (config : gmap string config_entry) :
  map_Forall (λ _ s, ∃ cls, class_of' s = Ok cls) config →
  (∀ n1 n2 s1 s2 cls,
     n1 ≠ n2 → config !! n1 = Some s1 → config !! n2 = Some s2 →
     class_of' s1 = Ok cls → class_of' s2 = Ok cls →
     multi_instance cls = false →
     ∃ n n' s s' c c',
       n ≠ n' ∧ config !! n = Some s ∧ config !! n' = Some s' ∧
       class_of' s = Ok c ∧ class_of' s' = Ok c' ∧
       type c' = type c ∧ multi_instance c = false ∧
       _create_providers iter_entry_points config base =
         Raise (RuntimeError
                  ("Provider does not support multiple instances: " +:+ type c))) ∧
  ((∀ n1 n2 s1 s2 c1 c2,
      n1 ≠ n2 → config !! n1 = Some s1 → config !! n2 = Some s2 →
      class_of' s1 = Ok c1 → class_of' s2 = Ok c2 → type c1 = type c2 →
      multi_instance c1 = true ∧ multi_instance c2 = true) →
   ∃ providers,
     _create_providers iter_entry_points config base = Ok providers ∧
     dom providers = dom config ∧
     ∀ n s cls, config !! n = Some s → class_of' s = Ok cls →
                providers !! n = Some {| provider_cls := cls; provider_name := n;
                                         provider_settings := settings_rest s |}).
Proof.
  intros Hres.
  assert (Hitems : Forall (λ item : string * config_entry,
                             ∃ cls, class_of' item.2 = Ok cls) (iteritems config)).
  { apply Forall_forall. intros [n s] Hin%elem_of_map_to_list.
    exact (Hres n s Hin). }
  pose proof (NoDup_fst_map_to_list config) as Hnd.
  unfold _create_providers. split.
  - intros n1 n2 s1 s2 cls Hne H1 H2 Hc1 Hc2 Hmulti.
    destruct (create_providers_loop_refuses iter_entry_points base (iteritems config)
                ∅ ∅ Hitems) as (pre & c & (n & s & post & Heq & Hc & Hm & Hseen) & Hraise).
    + apply elem_of_map_to_list in H1, H2. unfold iteritems.
      apply list_elem_of_split in H1 as (l1 & l2 & Hsplit).
      rewrite Hsplit in H2. apply elem_of_app in H2 as [H2|H2].
      * exists l1, cls, n1, s1, l2. repeat split; [done..|].
        right. by exists n2, s2, cls.
      * apply elem_of_cons in H2 as [?|H2]; [congruence|].
        apply list_elem_of_split in H2 as (l3 & l4 & ->).
        exists (l1 ++ (n1, s1) :: l3), cls, n2, s2, l4.
        rewrite Hsplit. rewrite <- app_assoc. repeat split; [done..|].
        right. exists n1, s1, cls. split; [|done].
        apply elem_of_app. right. apply list_elem_of_here.
    + destruct Hseen as [?%not_elem_of_empty|(n0 & s0 & c0 & Hin & Hc0 & Htype)];
        [done|].
      unfold iteritems in Heq. rewrite Heq in Hnd.
      exists n, n0, s, s0, c, c0. repeat split; try done.
      * intros ->. rewrite fmap_app, fmap_cons in Hnd.
        apply NoDup_app in Hnd as (_ & Hnd & _). apply (Hnd n0).
        -- apply list_elem_of_fmap. by exists (n0, s0).
        -- apply list_elem_of_here.
      * apply elem_of_map_to_list. rewrite Heq. apply elem_of_app. right.
        apply list_elem_of_here.
      * apply elem_of_map_to_list. rewrite Heq. apply elem_of_app. by left.
  - intros Hshared.
    destruct (create_providers_loop_accepts iter_entry_points base (iteritems config)
                ∅ ∅ Hnd Hitems) as (providers & Hok & Hin & Hout).
    + intros pre cls (n & s & post & Heq & Hc & Hm & Hseen).
      destruct Hseen as [?%not_elem_of_empty|(n0 & s0 & c0 & Hmem & Hc0 & Htype)];
        [done|].
      unfold iteritems in Heq. rewrite Heq in Hnd.
      destruct (Hshared n0 n s0 s c0 cls) as [_ Hm']; try done.
      * intros ->. rewrite fmap_app, fmap_cons in Hnd.
        apply NoDup_app in Hnd as (_ & Hnd & _). apply (Hnd n).
        -- apply list_elem_of_fmap. by exists (n, s0).
        -- apply list_elem_of_here.
      * apply elem_of_map_to_list. rewrite Heq. apply elem_of_app. by left.
      * apply elem_of_map_to_list. rewrite Heq. apply elem_of_app. right.
        apply list_elem_of_here.
      * congruence.
    + exists providers. split; [done|]. split.
      * apply set_eq. intros n. rewrite !elem_of_dom. split.
        -- intros [p Hp]. destruct (config !! n) as [s|] eqn:Hn; [by eauto|].
           rewrite Hout, lookup_empty in Hp; [done|].
           intros ([n' s'] & -> & Hmem%elem_of_map_to_list)%list_elem_of_fmap.
           simpl in Hn. congruence.
        -- intros [s Hs]. destruct (Hres n s Hs) as [cls Hcls].
           rewrite (Hin n s cls); [by eauto| |done].
           by apply elem_of_map_to_list.
      * intros n s cls Hs Hcls. apply (Hin n s cls); [|done].
        by apply elem_of_map_to_list.
Qed.
End create_providers.

Lemma create_providers_multi_instance_witness :
  (∃ n n' s s' c c',
     n ≠ n' ∧ config_unique_twice !! n = Some s ∧ config_unique_twice !! n' = Some s' ∧
     entry_class example_entry_points AuthProvider s = Ok c ∧
     entry_class example_entry_points AuthProvider s' = Ok c' ∧
     type c' = type c ∧ multi_instance c = false ∧
     _create_providers example_entry_points config_unique_twice AuthProvider =
       Raise (RuntimeError
                ("Provider does not support multiple instances: " +:+ type c))) ∧
  (∃ providers,
     _create_providers example_entry_points config_foo_twice AuthProvider = Ok providers ∧
     dom providers = dom config_foo_twice ∧
     ∀ n s cls, config_foo_twice !! n = Some s →
                entry_class example_entry_points AuthProvider s = Ok cls →
                providers !! n = Some {| provider_cls := cls; provider_name := n;
                                         provider_settings := settings_rest s |}).
Proof.
  split.
  - refine (proj1 (create_providers_multi_instance example_entry_points AuthProvider
                     config_unique_twice _) "test" "test2" _ _ UniqueProvider
                  _ eq_refl eq_refl eq_refl eq_refl eq_refl).
    + apply map_Forall_insert_2; [by eexists|].
      apply map_Forall_singleton. by eexists.
    + discriminate.
  - refine (proj2 (create_providers_multi_instance example_entry_points AuthProvider
                     config_foo_twice _) _).
    + apply map_Forall_insert_2; [by eexists|].
      apply map_Forall_singleton. by eexists.
    + intros n1 n2 s1 s2 c1 c2 _ H1 H2 Hc1 Hc2 _.
      unfold config_foo_twice in H1, H2.
      apply lookup_insert_Some in H1 as [[_ <-]|[_ [_ <-]%lookup_singleton_Some]];
      apply lookup_insert_Some in H2 as [[_ <-]|[_ [_ <-]%lookup_singleton_Some]];
      injection Hc1 as <-; injection Hc2 as <-; split; reflexivity.
Defined.


(** ** The LDAP helpers *)

Section first_match.
Context {A : Type} (P : A → Prop) `{∀ x, Decision (P x)}.

Lemma filter_no_match (l : list A) : Forall (λ x, ¬ P x) l → filter P l = [].
Proof.
  induction 1 as [|x l Hx _ IH]; [done|].
  by rewrite filter_cons_False.
Qed.

Lemma filter_first_match (pre post : list A) (x : A) :
  Forall (λ x, ¬ P x) pre → P x →
  filter P (pre ++ x :: post) = x :: filter P post.
Proof.
  intros Hpre Hx. rewrite filter_app, filter_no_match by done.
  by rewrite filter_cons_True.
Qed.
End first_match.

(** C8. When no control of the list has the control type of the simple
    paged results control of RFC 2696, [get_page_cookie] fails with the
    error of a server that does not support paging; otherwise it returns the
    cookie of the first control of this type. *)
Theorem get_page_cookie_first_paged_control (server_ctrls : list server_control) :
  (Forall (λ ctrl, controlType ctrl ≠ SimplePagedResultsControl_controlType)
          server_ctrls →
   get_page_cookie server_ctrls =
     Raise (LDAPServerError "The LDAP server ignores the RFC 2696 specification")) ∧
  (∀ pre ctrl post,
     server_ctrls = pre ++ ctrl :: post →
     Forall (λ ctrl, controlType ctrl ≠ SimplePagedResultsControl_controlType) pre →
     controlType ctrl = SimplePagedResultsControl_controlType →
     get_page_cookie server_ctrls = Ok (cookie ctrl)).
Proof.
  unfold get_page_cookie. split.
  - intros Hnone. by rewrite filter_no_match.
  - intros pre ctrl post -> Hpre Hctrl. by rewrite filter_first_match.
Qed.

Lemma get_page_cookie_first_paged_control_witness :
  get_page_cookie [ {| controlType := "2.16.840.1.113730.3.4.2";
                       criticality := false; cookie := "" |} ] =
    Raise (LDAPServerError "The LDAP server ignores the RFC 2696 specification") ∧
  get_page_cookie [ {| controlType := "2.16.840.1.113730.3.4.2";
                       criticality := false; cookie := "" |};
                    {| controlType := "1.2.840.113556.1.4.319";
                       criticality := false; cookie := "page2" |};
                    {| controlType := "1.2.840.113556.1.4.319";
                       criticality := false; cookie := "page3" |} ] = Ok "page2".
Proof.
  split.
  - apply (proj1 (get_page_cookie_first_paged_control _)).
    repeat constructor. discriminate.
  - apply (proj2 (get_page_cookie_first_paged_control _)
             [ {| controlType := "2.16.840.1.113730.3.4.2";
                  criticality := false; cookie := "" |} ]
             {| controlType := "1.2.840.113556.1.4.319";
                criticality := false; cookie := "page2" |}
             [ {| controlType := "1.2.840.113556.1.4.319";
                  criticality := false; cookie := "page3" |} ]).
    + reflexivity.
    + repeat constructor. discriminate.
    + reflexivity.
Defined.

(** C9. [find_one] searches the sub-tree with the size limit 1. Whatever
    sequence the directory answers with, it returns the first pair of a DN
    and attributes whose DN is not empty, and the pair [(None, None)] when
    there is none, in particular when the answer is empty: it raises
    nothing of its own. *)
Theorem find_one_first_entry (current_ldap : LDAPContext)
    (base_dn search_filter : string) (attributes : option (list string))
    (entry : list ldap_entry) :
  search_ext_s (connection current_ldap) base_dn SCOPE_SUBTREE search_filter
               attributes (timeout (settings current_ldap)) 1 = Ok entry →
  (Forall (λ e, e.1 = None ∨ e.1 = Some "") entry →
   find_one current_ldap base_dn search_filter attributes = Ok (None, None)) ∧
  (∀ pre dn data post,
     entry = pre ++ (Some dn, data) :: post →
     Forall (λ e, e.1 = None ∨ e.1 = Some "") pre → dn ≠ "" →
     find_one current_ldap base_dn search_filter attributes =
       Ok (Some dn, Some data)).
Proof.
  intros Hsearch. unfold find_one. rewrite Hsearch. simpl.
  assert (Hfalsy : ∀ l : list ldap_entry,
            Forall (λ e, e.1 = None ∨ e.1 = Some "") l →
            Forall (λ e, ¬ truthy_dn e.1) l).
  { intros l Hl. eapply Forall_impl; [exact Hl|].
    intros [dn data] [->| ->]; simpl; by intros []. }
  split.
  - intros Hnone. by rewrite filter_no_match by auto.
  - intros pre dn data post -> Hpre Hdn.
    rewrite filter_first_match; [done|by auto|].
    simpl. unfold truthy_str. destruct (String.eqb_spec dn ""); done.
Qed.

Lemma find_one_first_entry_witness :
  find_one example_ldap "dc=example" "(uid=jdoe)" None =
    Ok (Some "uid=jdoe,dc=example", Some {[ "uid" := ["jdoe"] ]}) ∧
  find_one example_ldap_empty "dc=example" "(uid=jdoe)" None = Ok (None, None).
Proof.
  split.
  - apply (proj2 (find_one_first_entry example_ldap "dc=example" "(uid=jdoe)" None _
                    eq_refl)
             [(None, ∅); (Some "", ∅)] "uid=jdoe,dc=example" {[ "uid" := ["jdoe"] ]}
             [(Some "uid=other,dc=example", ∅)]).
    + reflexivity.
    + apply Forall_cons. split; [by left|].
      apply Forall_cons. split; [by right|]. apply Forall_nil_2.
    + discriminate.
  - apply (proj1 (find_one_first_entry example_ldap_empty "dc=example" "(uid=jdoe)"
                    None [] eq_refl)).
    apply Forall_nil_2.
Defined.


(** ** The resolution engine, [handle_auth_info] *)

Section core_facts.
Context {UserInfo Callback : Type}.
Variable auth_info_map : AuthInfo → gmap string string → result AuthInfo.
Variable get_user_from_auth : provider → AuthInfo → result (option UserInfo).

Abbreviation query := (link_query auth_info_map get_user_from_auth).
Abbreviation collect := (collect_users auth_info_map get_user_from_auth).
Abbreviation handle :=
  (handle_auth_info (Callback := Callback) auth_info_map get_user_from_auth).

Lemma collect_users_cons config state auth_info l links (users : list UserInfo) :
  collect config state auth_info (l :: links) users =
    user_info ← query state auth_info l;
    match user_info with
    | None => collect config state auth_info links users
    | Some user_info =>
        if negb (MULTIAUTH_ALL_MATCHING_USERS config) then Ok (users ++ [user_info])
        else collect config state auth_info links (users ++ [user_info])
    end.
Proof.
  unfold link_query. simpl.
  destruct (link_provider state l) as [provider|]; [simpl|done].
  by destruct (auth_info_map auth_info (link_get_mapping l)).
Qed.

(** Links that find nobody leave the collected users as they are. *)
Lemma collect_users_no_match config state auth_info links (users : list UserInfo) :
  Forall (λ l, query state auth_info l = Ok None) links →
  collect config state auth_info links users = Ok users.
Proof.
  induction 1 as [|l links Hl _ IH]; [done|].
  by rewrite collect_users_cons, Hl.
Qed.

(** With [MULTIAUTH_ALL_MATCHING_USERS], every link is queried and the users
    found are collected in the order of the links. *)
Lemma collect_users_all_matches config state auth_info links found
    (users : list UserInfo) :
  MULTIAUTH_ALL_MATCHING_USERS config = true →
  Forall2 (λ l user_info, query state auth_info l = Ok user_info) links found →
  collect config state auth_info links users = Ok (users ++ omap id found).
Proof.
  intros Hall Hfound. revert users.
  induction Hfound as [|l user_info links found Hl _ IH]; intros users.
  - by rewrite app_nil_r.
  - rewrite collect_users_cons, Hl. simpl. destruct user_info as [u|]; simpl.
    + rewrite Hall. simpl. by rewrite IH, <- app_assoc.
    + apply IH.
Qed.

(** Without it, the loop stops at the first link that finds a user, and the
    links after it are not looked at. *)
Lemma collect_users_first_match config state auth_info pre l post u
    (users : list UserInfo) :
  MULTIAUTH_ALL_MATCHING_USERS config = false →
  Forall (λ l, query state auth_info l = Ok None) pre →
  query state auth_info l = Ok (Some u) →
  collect config state auth_info (pre ++ l :: post) users = Ok (users ++ [u]).
Proof.
  intros Hall Hpre Hl. induction Hpre as [|l' pre Hl' _ IH]; simpl app.
  - by rewrite collect_users_cons, Hl, Hall.
  - by rewrite collect_users_cons, Hl'.
Qed.

(** For links that carry the key ['user_provider'], so that every linked
    provider is queried: when all of them find nobody, [handle_auth_info]
    raises [UserRetrievalFailed] if [MULTIAUTH_REQUIRE_USER] is set,
    whatever [MULTIAUTH_ALL_MATCHING_USERS] is; if it is not set, the
    registered callback is called with [None], or with the empty list when
    [MULTIAUTH_ALL_MATCHING_USERS] is set. *)
Lemma handle_auth_info_no_match (config : app_config) (state : _MultiAuthState)
    (user_callback : option Callback) (auth_info : AuthInfo) (links : list link) :
  provider_map state !! provider_name (auth_info_provider auth_info) = Some links →
  Forall (λ l, link_query auth_info_map get_user_from_auth state auth_info l = Ok None)
         links →
  (MULTIAUTH_REQUIRE_USER config = true →
   handle_auth_info auth_info_map get_user_from_auth config state user_callback auth_info
     = Raise (UserRetrievalFailed "No user found")) ∧
  (MULTIAUTH_REQUIRE_USER config = false →
   ∀ callback, user_callback = Some callback →
     handle_auth_info auth_info_map get_user_from_auth config state user_callback
                      auth_info =
       Ok (Called callback
             (if MULTIAUTH_ALL_MATCHING_USERS config then UserList [] else OneUser None))).
Proof.
  intros Hlinks Hnone. unfold handle_auth_info. rewrite Hlinks. simpl.
  rewrite collect_users_no_match by done. simpl. split.
  - by intros ->.
  - intros -> callback ->. simpl.
    by destruct (MULTIAUTH_ALL_MATCHING_USERS config).
Qed.

(** C2 on a provider map that is configured with names. Normalization
    stores a name under the key ['identity_provider'], and
    [handle_auth_info] reads the key ['user_provider']: when the value
    configured for the auth provider of the event begins with a name,
    [handle_auth_info] raises [KeyError] at the first link, although every
    identity provider returns no match when it is asked. It neither raises
    [UserRetrievalFailed] nor calls the callback, whatever the two flags
    are. *)
Theorem handle_auth_info_no_match_key_error (config : app_config)
    (state : _MultiAuthState) (user_callback : option Callback) (auth_info : AuthInfo)
    (configured : gmap string raw_links) (identity_providers : raw_links)
    (p : string) (ps : list entry) :
  provider_map state = get_canonical_provider_map configured →
  configured !! provider_name (auth_info_provider auth_info) = Some identity_providers →
  configured_entries identity_providers = EntryName p :: ps →
  handle_auth_info (UserInfo := UserInfo) auth_info_map (λ _ _, Ok None)
                   config state user_callback auth_info
    = Raise (KeyError "user_provider").
Proof.
  intros Hmap Hconfigured Hentries. unfold handle_auth_info.
  rewrite Hmap, get_canonical_provider_map_lookup, Hconfigured. simpl.
  assert (Hlinks : canonical_links identity_providers
                   = canonical_link <$> configured_entries identity_providers).
  { by destruct identity_providers. }
  by rewrite Hlinks, Hentries.
Qed.

(** For links that carry the key ['user_provider']: what the callback
    receives under each policy. *)
Lemma handle_auth_info_all_matches config state callback auth_info links found :
  MULTIAUTH_ALL_MATCHING_USERS config = true →
  provider_map state !! provider_name (auth_info_provider auth_info) = Some links →
  Forall2 (λ l user_info, query state auth_info l = Ok user_info) links found →
  omap id found ≠ [] →
  handle config state (Some callback) auth_info =
    Ok (Called callback (UserList (omap id found))).
Proof.
  intros Hall Hlinks Hfound Hne. unfold handle_auth_info. rewrite Hlinks. simpl.
  rewrite (collect_users_all_matches _ _ _ _ found) by done. simpl.
  rewrite bool_decide_eq_false_2 by done. simpl. by rewrite Hall.
Qed.

Lemma handle_auth_info_first_match config state callback auth_info pre l post u :
  MULTIAUTH_ALL_MATCHING_USERS config = false →
  provider_map state !! provider_name (auth_info_provider auth_info)
    = Some (pre ++ l :: post) →
  Forall (λ l, query state auth_info l = Ok None) pre →
  query state auth_info l = Ok (Some u) →
  handle config state (Some callback) auth_info = Ok (Called callback (OneUser (Some u))).
Proof.
  intros Hall Hlinks Hpre Hl. unfold handle_auth_info. rewrite Hlinks. simpl.
  rewrite (collect_users_first_match _ _ _ _ _ _ u) by done. simpl.
  by rewrite Hall.
Qed.

(** C3 on the provider map [{a: x}]. Normalization stores the name under
    the key ['identity_provider'], [handle_auth_info] reads the key
    ['user_provider']: the first link raises [KeyError] before any provider
    is queried, whatever the policy, the providers and the callback are. *)
Theorem handle_auth_info_normalized_link_key_error (config : app_config)
    (user_callback : option Callback) :
  provider_map example_state_resolution !! "a"
    = Some [ {| link_identity_provider := Some "x";
                link_user_provider := None;
                link_mapping := None |} ] ∧
  handle_auth_info auth_info_map get_user_from_auth config example_state_resolution
                   user_callback example_auth_info =
    Raise (KeyError "user_provider").
Proof. split; reflexivity. Qed.
End core_facts.

Lemma handle_auth_info_no_match_witness :
  handle_auth_info (UserInfo := string) (Callback := string)
      (λ auth_info _, Ok auth_info) (λ _ _, Ok None)
      {| MULTIAUTH_ALL_MATCHING_USERS := true; MULTIAUTH_REQUIRE_USER := true |}
      example_state_user_links (Some "callback") example_auth_info =
    Raise (UserRetrievalFailed "No user found") ∧
  handle_auth_info (UserInfo := string) (Callback := string)
      (λ auth_info _, Ok auth_info) (λ _ _, Ok None)
      {| MULTIAUTH_ALL_MATCHING_USERS := true; MULTIAUTH_REQUIRE_USER := false |}
      example_state_user_links (Some "callback") example_auth_info =
    Ok (Called "callback" (UserList [])).
Proof.
  split.
  - apply (proj1 (handle_auth_info_no_match (UserInfo := string) (Callback := string)
                    (λ auth_info _, Ok auth_info) (λ _ _, Ok None)
                    {| MULTIAUTH_ALL_MATCHING_USERS := true;
                       MULTIAUTH_REQUIRE_USER := true |}
                    example_state_user_links (Some "callback") example_auth_info
                    [Link None (Some "x") None;
                     Link None (Some "y") (Some {[ "id" := "uid" ]})]
                    eq_refl
                    ltac:(repeat (apply Forall_cons; split; [reflexivity|]);
                          apply Forall_nil_2))).
    reflexivity.
  - apply (proj2 (handle_auth_info_no_match (UserInfo := string) (Callback := string)
                    (λ auth_info _, Ok auth_info) (λ _ _, Ok None)
                    {| MULTIAUTH_ALL_MATCHING_USERS := true;
                       MULTIAUTH_REQUIRE_USER := false |}
                    example_state_user_links (Some "callback") example_auth_info
                    [Link None (Some "x") None;
                     Link None (Some "y") (Some {[ "id" := "uid" ]})]
                    eq_refl
                    ltac:(repeat (apply Forall_cons; split; [reflexivity|]);
                          apply Forall_nil_2))
             eq_refl "callback" eq_refl).
Defined.

Lemma handle_auth_info_no_match_key_error_witness :
  handle_auth_info (UserInfo := string) (Callback := string)
      example_auth_info_map (λ _ _, Ok None)
      {| MULTIAUTH_ALL_MATCHING_USERS := false; MULTIAUTH_REQUIRE_USER := true |}
      example_state_resolution (Some "callback") example_auth_info =
    Raise (KeyError "user_provider").
Proof.
  apply (handle_auth_info_no_match_key_error (UserInfo := string) (Callback := string)
           example_auth_info_map
           {| MULTIAUTH_ALL_MATCHING_USERS := false; MULTIAUTH_REQUIRE_USER := true |}
           example_state_resolution (Some "callback") example_auth_info
           example_named_map (Single (EntryName "x")) "x" []); reflexivity.
Defined.


(** *** String formatting *)





(** A text conversion without flags, width and precision writes the
    argument as it is. *)
Lemma format_output_plain (c : ascii) (text : string) :
  format_output false None None c text = text.
Proof. reflexivity. Qed.






(** The operator on some templates: the conversions [%s] with and without
    width and precision, [%%], and the errors in the order in which they
    are found. *)
Lemma percent_format_examples :
  percent_format "(&(%s=%s)(o=%s))" ["cn"; "jdoe"; "x"] = Ok "(&(cn=jdoe)(o=x))" ∧
  percent_format "%5s|%-5s|%.1s" ["a"; "b"; "cd"] = Ok "    a|b    |c" ∧
  percent_format "%r" ["jo'hn"]
    = Ok (String double_quote ("jo'hn" +:+ String double_quote "")) ∧
  percent_format "100%%" [] = Ok "100%" ∧
  percent_format "100%" [] = Raise (ValueError "incomplete format") ∧
  percent_format "%s" [] = Raise (TypeError "not enough arguments for format string") ∧
  percent_format "%)" [] = Raise (TypeError "not enough arguments for format string") ∧
  percent_format "%)" ["x"]
    = Raise (ValueError "unsupported format character ')' (0x29) at index 1") ∧
  percent_format "%5%" ["x"]
    = Raise (ValueError "unsupported format character '%' (0x25) at index 2") ∧
  percent_format "%d" ["1"]
    = Raise (TypeError "%d format: a real number is required, not str") ∧
  percent_format "%(cn)s" ["x"] = Raise (TypeError "format requires a mapping") ∧
  percent_format "" ["x"]
    = Raise (TypeError "not all arguments converted during string formatting").
Proof. repeat split; by vm_compute. Qed.

(** *** [build_search_filter] *)

Section search_filter_facts.
Variable convert_app_data : dict → gmap string string → dict.

End search_filter_facts.

(** The examples of the specification, with the attribute mapper of
    [flask_multiauth.util] as [convert_app_data]. *)
Lemma build_search_filter_examples :
  build_search_filter convert_criteria {[ "name" := VStr "john" ]}
                      "(objectClass=user)" (Some ∅) true
    = Ok (Some "(&(name=john)(objectClass=user))") ∧
  build_search_filter convert_criteria {[ "name" := VStr "john" ]}
                      "(objectClass=user)" (Some ∅) false
    = Ok (Some "(&(name=*john*)(objectClass=user))") ∧
  build_search_filter convert_criteria ∅ "(objectClass=user)" (Some ∅) false
    = Ok None ∧
  build_search_filter convert_criteria
                      {[ "name" := VStr "jo*hn"; "mail" := VStr ""; "uid" := VNone ]}
                      "(objectClass=user)" None true
    = Ok (Some "(&(name=jo\2ahn)(objectClass=user))").
Proof. repeat split; by vm_compute. Qed.

(** C7 on a type filter that holds the character [%]. The type filter is
    put into the template before the values are formatted into it, so its
    [%] begins a conversion, for which no argument is left: on the criterion
    [name = john], the builder raises [TypeError] on the type filter
    [(description=100%)] and on the type filter [(cn=%s)]; in neither case
    it returns the conjunction of the assertion and the type filter. *)
Theorem build_search_filter_percent_in_type_filter :
  build_search_filter convert_criteria {[ "name" := VStr "john" ]}
                      "(description=100%)" (Some ∅) true
    = Raise (TypeError "not enough arguments for format string") ∧
  build_search_filter convert_criteria {[ "name" := VStr "john" ]}
                      "(cn=%s)" (Some ∅) true
    = Raise (TypeError "not enough arguments for format string") ∧
  surviving (convert_criteria {[ "name" := VStr "john" ]} ∅) = [("name", VStr "john")].
Proof. repeat split; by vm_compute. Qed.


(* ===================================================================== *)
(** * Further properties of the modelled code *)
(* ===================================================================== *)

(** ** More on [convert_data] *)

(** Without a key list the result holds the keys of the record that the
    mapping does not read, and every target of the mapping; a key that the
    mapping neither reads nor writes keeps what the record has for it. *)
Theorem convert_data_keeps_unmapped (data : dict) (mapping : gmap string string) :
  dom (convert_data data mapping None) = (dom data ∖ mapped_keys mapping) ∪ dom mapping ∧
  (∀ k, k ∉ mapped_keys mapping → k ∉ dom mapping →
        convert_data data mapping None !! k = data !! k).
Proof.
  split.
  - apply set_eq. intros k.
    rewrite elem_of_union, elem_of_difference, !elem_of_dom, convert_data_all_lookup.
    destruct (mapping !! k) as [s|] eqn:Hm.
    + split; [intros _; right|]; by eauto.
    + case_decide as Hk.
      * split; [by intros []|]. intros [[_ []]|[]]; done.
      * split; [by left|]. by intros [[]|[]].
  - intros k Hsrc Htgt. rewrite convert_data_all_lookup.
    apply not_elem_of_dom in Htgt. rewrite Htgt. by rewrite decide_False.
Qed.

Lemma convert_data_keeps_unmapped_witness :
  convert_data {[ "uid" := VStr "jdoe"; "mail" := VStr "j@x.com" ]} {[ "id" := "uid" ]} None
    !! "mail"
  = ({[ "uid" := VStr "jdoe"; "mail" := VStr "j@x.com" ]} : dict) !! "mail".
Proof.
  apply (proj2 (convert_data_keeps_unmapped
                  {[ "uid" := VStr "jdoe"; "mail" := VStr "j@x.com" ]} {[ "id" := "uid" ]})
           "mail"); compute_done.
Defined.

Lemma mapped_keys_empty : mapped_keys ∅ = ∅.
Proof.
  apply set_eq. intros k. rewrite elem_of_mapped_keys. split.
  - intros [t Ht]. by rewrite lookup_empty in Ht.
  - by intros ?%not_elem_of_empty.
Qed.

(** With the empty mapping the mapper returns the record itself when no key
    list is given, and with a key list the record cut down to these keys,
    with [None] for the keys it lacks. *)
Theorem convert_data_empty_mapping (data : dict) :
  convert_data data ∅ None = data ∧
  ∀ keys k, convert_data data ∅ (Some keys) !! k =
            if decide (k ∈ keys) then Some (dict_get data k) else None.
Proof.
  assert (Hall : ∀ k, convert_data data ∅ None !! k = data !! k).
  { intros k. rewrite convert_data_all_lookup, lookup_empty, mapped_keys_empty.
    by rewrite decide_False by apply not_elem_of_empty. }
  split.
  - by apply map_eq.
  - intros keys k. by rewrite convert_data_keys_lookup, Hall.
Qed.

(** ** More on the canonical provider map *)

(** Normalization keeps the auth provider names, and it is idempotent: a
    map whose values are tuples of link-objects, as its own result is,
    comes out of it unchanged. *)
Theorem get_canonical_provider_map_canonical :
  (∀ provider_map : gmap string raw_links,
     dom (get_canonical_provider_map provider_map) = dom provider_map) ∧
  (∀ canonical : gmap string (list link),
     get_canonical_provider_map (as_configured <$> canonical) = canonical) ∧
  (∀ provider_map : gmap string raw_links,
     get_canonical_provider_map (as_configured <$> get_canonical_provider_map provider_map)
       = get_canonical_provider_map provider_map).
Proof.
  assert (Hfixed : ∀ canonical : gmap string (list link),
            get_canonical_provider_map (as_configured <$> canonical) = canonical).
  { intros canonical. apply map_eq. intros a.
    rewrite get_canonical_provider_map_lookup, lookup_fmap.
    destruct (canonical !! a) as [links|]; [simpl|done].
    f_equal. unfold canonical_links, as_configured.
    rewrite <- list_fmap_compose. by rewrite list_fmap_id. }
  split; [|split; [exact Hfixed|]].
  - intros provider_map. apply set_eq. intros a.
    by rewrite !elem_of_dom, get_canonical_provider_map_lookup, fmap_is_Some.
  - intros provider_map. apply Hfixed.
Qed.

(** ** More on the validation *)

Lemma traverse_getitem_identity_provider_inv (ls : list link) names :
  traverse getitem_identity_provider ls = Ok names →
  Forall (λ l, is_Some (link_identity_provider l)) ls.
Proof.
  revert names. induction ls as [|l ls IH]; intros names; [by constructor|].
  cbn [traverse]. intros Hok.
  assert (Hl : is_Some (link_identity_provider l)).
  { unfold getitem_identity_provider in Hok.
    destruct (link_identity_provider l); [by eauto|done]. }
  destruct (getitem_identity_provider l); simpl in Hok; [|done].
  destruct (traverse getitem_identity_provider ls) as [names'|] eqn:Hls;
    simpl in Hok; [|done].
  constructor; [done|]. by eapply IH.
Qed.

(** The validation passes only for a state in which every registered auth
    provider is linked, every link names an identity provider, the registry
    of identity providers is there and holds every targeted name. *)
Theorem validate_provider_map_sound (state : _MultiAuthState) :
  validate_provider_map state = Ok () →
  dom (auth_providers state) ⊆ dom (provider_map state) ∧
  map_Forall (λ _ links, Forall (λ l, is_Some (link_identity_provider l)) links)
             (provider_map state) ∧
  ∃ registry, identity_providers state = Some registry ∧
              ∀ x, targeted state x → x ∈ dom registry.
Proof.
  unfold validate_provider_map. case_bool_decide as Hunlinked; [done|].
  destruct (targeted_providers (provider_map state)) as [T|] eqn:HT; [simpl|done].
  unfold getattr_identity_providers.
  destruct (identity_providers state) as [registry|] eqn:Hreg; [simpl|done].
  case_bool_decide as Hbroken; [done|]. intros _.
  assert (Hall : map_Forall
                   (λ _ links, Forall (λ l, is_Some (link_identity_provider l)) links)
                   (provider_map state)).
  { unfold targeted_providers in HT.
    destruct (traverse getitem_identity_provider
                (mjoin (snd <$> iteritems (provider_map state)))) as [names|] eqn:Hn;
      [|done].
    apply traverse_getitem_identity_provider_inv in Hn.
    intros a links Ha. apply Forall_forall. intros l Hl.
    eapply Forall_forall in Hn; [done|].
    apply elem_of_provider_map_links. by exists a, links. }
  split; [|split; [done|]].
  - intros a Ha. destruct (decide (a ∈ dom (provider_map state))); [done|].
    exfalso. apply (not_elem_of_empty (C := gset string) a). rewrite <- Hunlinked.
    by apply elem_of_difference.
  - exists registry. split; [done|]. intros x Hx.
    destruct (targeted_providers_ok state Hall) as (T' & HT' & Hiff).
    assert (T' = T) as -> by congruence.
    destruct (decide (x ∈ dom registry)); [done|].
    exfalso. apply (not_elem_of_empty (C := gset string) x). rewrite <- Hbroken.
    apply elem_of_difference. split; [by apply Hiff|done].
Qed.

Lemma validate_provider_map_sound_witness :
  dom (auth_providers example_state_valid) ⊆ dom (provider_map example_state_valid) ∧
  map_Forall (λ _ links, Forall (λ l, is_Some (link_identity_provider l)) links)
             (provider_map example_state_valid) ∧
  ∃ registry, identity_providers example_state_valid = Some registry ∧
              ∀ x, targeted example_state_valid x → x ∈ dom registry.
Proof. apply (validate_provider_map_sound example_state_valid). reflexivity. Defined.

(** ** More on [resolve_provider_type] *)

Section resolve_facts.
Variable iter_entry_points : provider_base → string → list entry_point.

(** Whatever the type is given as, a class that [resolve_provider_type]
    returns is a subclass of the base asked for. *)
Theorem resolve_provider_type_subclass (base : provider_base) (type_ : type_ref)
    (registry : option (gmap string provider_class)) (cls : provider_class) :
  resolve_provider_type iter_entry_points base type_ registry = Ok cls →
  issubclass cls base = true.
Proof.
  unfold resolve_provider_type. destruct type_ as [c|n].
  - destruct (issubclass c base) eqn:Hsub; [|done]. by intros [= <-].
  - destruct (match registry ≫= (λ registry, registry !! n) with
              | Some c => Ok c
              | None => _
              end) as [c|]; simpl; [|done].
    destruct (issubclass c base) eqn:Hsub; [|done]. by intros [= <-].
Qed.

(** An identifier that the registry does not hold resolves only through the
    entry points, and only when exactly one is installed for it: with none
    the error is [ValueError], with several it is [RuntimeError] and names
    the module of each of them. *)
Theorem resolve_provider_type_entry_points (base : provider_base) (type_ : string)
    (registry : option (gmap string provider_class)) :
  registry ≫= (λ registry, registry !! type_) = None →
  (iter_entry_points base type_ = [] →
   resolve_provider_type iter_entry_points base (TypeName type_) registry =
     Raise (ValueError ("Unknown type: " +:+ type_))) ∧
  ((2 ≤ length (iter_entry_points base type_))%nat →
   resolve_provider_type iter_entry_points base (TypeName type_) registry =
     Raise (RuntimeError
              ("Type " +:+ type_ +:+ " is not unique. Defined in " +:+
               String.concat ", " (module_name <$> iter_entry_points base type_)))) ∧
  (∀ cls, resolve_provider_type iter_entry_points base (TypeName type_) registry = Ok cls →
          ∃ entry_point, iter_entry_points base type_ = [entry_point] ∧
                         load entry_point = cls).
Proof.
  intros Hreg. unfold resolve_provider_type. rewrite Hreg.
  destruct (iter_entry_points base type_) as [|ep [|ep' eps]]; simpl.
  - split; [done|]. split; [lia|]. done.
  - split; [done|]. split; [lia|]. intros cls.
    destruct (issubclass (load ep) base); [|done]. intros [= <-]. by exists ep.
  - split; [done|]. split; [done|]. done.
Qed.
End resolve_facts.

(** A type that the registry holds is taken from it, whatever the installed
    entry points are. *)
Theorem resolve_provider_type_registry_first
    (iter_entry_points : provider_base → string → list entry_point)
    (base : provider_base) (type_ : string) (registry : gmap string provider_class)
    (cls : provider_class) :
  registry !! type_ = Some cls → issubclass cls base = true →
  resolve_provider_type iter_entry_points base (TypeName type_) (Some registry) = Ok cls.
Proof.
  intros Hreg Hsub. unfold resolve_provider_type. simpl. rewrite Hreg. simpl.
  by rewrite Hsub.
Qed.

Lemma resolve_provider_type_subclass_witness :
  issubclass UniqueProvider AuthProvider = true.
Proof.
  apply (resolve_provider_type_subclass example_entry_points AuthProvider
           (TypeName "unique") None UniqueProvider).
  reflexivity.
Defined.

Lemma resolve_provider_type_entry_points_witness :
  resolve_provider_type example_entry_points AuthProvider (TypeName "ldap")
                        (Some example_registry) =
    Raise (ValueError ("Unknown type: " +:+ "ldap")) ∧
  ∃ entry_point, example_entry_points AuthProvider "unique" = [entry_point] ∧
                 load entry_point = UniqueProvider.
Proof.
  split.
  - apply (proj1 (resolve_provider_type_entry_points example_entry_points AuthProvider
                    "ldap" (Some example_registry) eq_refl)).
    reflexivity.
  - apply (proj2 (proj2 (resolve_provider_type_entry_points example_entry_points
                           AuthProvider "unique" (Some example_registry) eq_refl))).
    reflexivity.
Defined.

Lemma resolve_provider_type_registry_first_witness :
  resolve_provider_type example_entry_points AuthProvider (TypeName "foo")
                        (Some example_registry) = Ok UniqueProvider.
Proof.
  apply resolve_provider_type_registry_first; reflexivity.
Defined.

(** ** More on [_create_providers] *)

Section create_providers_more.
Variable iter_entry_points : provider_base → string → list entry_point.
Variable base : provider_base.

Abbreviation class_of'' := (entry_class iter_entry_points base).
Abbreviation loop'' := (create_providers_loop iter_entry_points base).
Abbreviation refused'' := (refused iter_entry_points base).

Lemma create_providers_loop_ok_inv items : ∀ providers types result,
  NoDup items.*1 →
  loop'' items providers types = Ok result →
  (∀ n s, (n, s) ∈ items →
          ∃ cls, class_of'' s = Ok cls ∧ result !! n = Some (instance_of cls n s)) ∧
  (∀ n, n ∉ items.*1 → result !! n = providers !! n) ∧
  (∀ pre cls, ¬ refused'' types items pre cls).
Proof.
  induction items as [|[n1 s1] items IH]; intros providers types result Hnd Hok.
  { simpl in Hok. injection Hok as <-. split; [by intros n s ?%elem_of_nil|].
    split; [done|]. intros pre cls (n & s & post & Heq & _). by destruct pre. }
  rewrite fmap_cons in Hnd. apply NoDup_cons in Hnd as [Hn1 Hnd]. simpl in Hn1.
  rewrite create_providers_loop_step in Hok.
  destruct (class_of'' s1) as [c1|] eqn:Hc1; simpl in Hok; [|done].
  destruct (negb (multi_instance c1) && bool_decide (type c1 ∈ types)) eqn:Hcheck;
    [done|].
  destruct (IH _ _ _ Hnd Hok) as (Hin & Hout & Hfree).
  split; [|split].
  - intros n s [Heq|Hmem]%elem_of_cons.
    + simplify_eq. exists c1. split; [done|].
      rewrite Hout by done. apply lookup_insert_eq.
    + by apply Hin.
  - intros n Hn. apply not_elem_of_cons in Hn as [Hne Hn]. simpl in Hne.
    rewrite Hout by done. by apply lookup_insert_ne.
  - intros pre cls (n & s & post & Heq & Hcls & Hmulti & Hseen).
    destruct pre as [|item pre]; simplify_eq/=.
    + assert (cls = c1) as -> by congruence.
      rewrite Hmulti in Hcheck. simpl in Hcheck.
      apply bool_decide_eq_false in Hcheck.
      destruct Hseen as [?|(? & ? & ? & ?%elem_of_nil & _)]; done.
    + apply (Hfree pre cls). exists n, s, post. repeat split; [done..|].
      destruct Hseen as [Hin'|(n0 & s0 & c0 & Hin' & Hc0 & Htype)].
      * left. apply elem_of_union. by right.
      * apply elem_of_cons in Hin' as [Heq|Hin'].
        -- simplify_eq. left. apply elem_of_union. left.
           apply elem_of_singleton. congruence.
        -- right. by exists n0, s0, c0.
Qed.

(** What a successful creation returns: one instance per configured name
    and no other; the instance under a name is built from the class its
    entry resolves to, a subclass of the base, from this name and from the
    settings without their ['type'] key; and a class that does not allow
    several instances has at most one. *)
Theorem create_providers_result (config : gmap string config_entry)
    (providers : gmap string provider) :
  _create_providers iter_entry_points config base = Ok providers →
  dom providers = dom config ∧
  (∀ n p, providers !! n = Some p →
          ∃ s, config !! n = Some s ∧
               entry_class iter_entry_points base s = Ok (provider_cls p) ∧
               issubclass (provider_cls p) base = true ∧
               provider_name p = n ∧ provider_settings p = settings_rest s) ∧
  (∀ n1 n2 p1 p2, n1 ≠ n2 → providers !! n1 = Some p1 → providers !! n2 = Some p2 →
                  provider_cls p1 = provider_cls p2 →
                  multi_instance (provider_cls p1) = true).
Proof.
  unfold _create_providers. intros Hok.
  pose proof (NoDup_fst_map_to_list config) as Hnd.
  destruct (create_providers_loop_ok_inv _ _ _ _ Hnd Hok) as (Hin & Hout & Hfree).
  assert (Hlookup : ∀ n p, providers !! n = Some p →
            ∃ s, config !! n = Some s ∧ class_of'' s = Ok (provider_cls p) ∧
                 p = instance_of (provider_cls p) n s).
  { intros n p Hp. destruct (config !! n) as [s|] eqn:Hn.
    - destruct (Hin n s) as (cls & Hcls & Hres); [by apply elem_of_map_to_list|].
      exists s. rewrite Hp in Hres. injection Hres as ->. done.
    - rewrite Hout, lookup_empty in Hp; [done|].
      intros ([n' s'] & -> & Hmem%elem_of_map_to_list)%list_elem_of_fmap.
      simpl in Hn. congruence. }
  split; [|split].
  - apply set_eq. intros n. rewrite !elem_of_dom. split.
    + intros [p Hp]. destruct (Hlookup n p Hp) as (s & Hs & _). by eauto.
    + intros [s Hs]. destruct (Hin n s) as (cls & _ & Hres);
        [by apply elem_of_map_to_list|by eauto].
  - intros n p Hp. destruct (Hlookup n p Hp) as (s & Hs & Hcls & Hinst).
    exists s. repeat split; [done..| |by rewrite Hinst|by rewrite Hinst].
    unfold entry_class in Hcls.
    destruct (pop_type s) as [popped|]; simpl in Hcls; [|done].
    revert Hcls. generalize (provider_cls p). intros cls.
    unfold resolve_provider_type. destruct popped.1 as [c|type_].
    + destruct (issubclass c base) eqn:Hsub; [|done]. by intros [= <-].
    + destruct (match _ ≫= (λ registry, registry !! type_) with
                | Some c => Ok c
                | None => _
                end) as [c|]; simpl; [|done].
      destruct (issubclass c base) eqn:Hsub; [|done]. by intros [= <-].
  - intros n1 n2 p1 p2 Hne Hp1 Hp2 Hsame.
    destruct (Hlookup n1 p1 Hp1) as (s1 & Hs1 & Hc1 & _).
    destruct (Hlookup n2 p2 Hp2) as (s2 & Hs2 & Hc2 & _).
    rewrite <- Hsame in Hc2.
    destruct (multi_instance (provider_cls p1)) eqn:Hmulti; [done|]. exfalso.
    apply elem_of_map_to_list in Hs1, Hs2. unfold iteritems in Hfree.
    apply list_elem_of_split in Hs1 as (l1 & l2 & Hsplit).
    rewrite Hsplit in Hs2. apply elem_of_app in Hs2 as [Hs2|Hs2].
    + apply (Hfree l1 (provider_cls p1)). exists n1, s1, l2.
      repeat split; [done..|]. right. by exists n2, s2, (provider_cls p1).
    + apply elem_of_cons in Hs2 as [?|Hs2]; [congruence|].
      apply list_elem_of_split in Hs2 as (l3 & l4 & ->).
      apply (Hfree (l1 ++ (n1, s1) :: l3) (provider_cls p1)). exists n2, s2, l4.
      rewrite Hsplit, <- app_assoc. repeat split; [done..|].
      right. exists n1, s1, (provider_cls p1). split; [|done].
      apply elem_of_app. right. apply list_elem_of_here.
Qed.
End create_providers_more.

Lemma create_providers_result_witness :
  dom example_providers = dom config_foo_twice ∧
  (∀ n1 n2 p1 p2, n1 ≠ n2 → example_providers !! n1 = Some p1 →
                  example_providers !! n2 = Some p2 →
                  provider_cls p1 = provider_cls p2 →
                  multi_instance (provider_cls p1) = true).
Proof.
  pose proof (create_providers_result example_entry_points AuthProvider
                config_foo_twice example_providers ltac:(by vm_compute))
    as (Hdom & _ & Hunique).
  split; [exact Hdom|exact Hunique].
Defined.

(** ** More on [handle_auth_info] *)

Section policies.
Context {UserInfo Callback : Type}.
Variable auth_info_map : AuthInfo → gmap string string → result AuthInfo.
Variable get_user_from_auth : provider → AuthInfo → result (option UserInfo).

Abbreviation collect' := (collect_users auth_info_map get_user_from_auth).

Lemma collect_users_extends config state auth_info links : ∀ users result,
  collect' config state auth_info links users = Ok result →
  ∃ found : list UserInfo, result = users ++ found.
Proof.
  induction links as [|l links IH]; intros users result.
  - intros [= <-]. exists []. by rewrite app_nil_r.
  - rewrite collect_users_cons.
    destruct (link_query auth_info_map get_user_from_auth state auth_info l)
      as [[u|]|]; simpl; [| |done].
    + destruct (negb (MULTIAUTH_ALL_MATCHING_USERS config)).
      * intros [= <-]. by exists [u].
      * intros (found & ->)%IH. exists (u :: found). by rewrite <- app_assoc.
    + apply IH.
Qed.

Lemma collect_users_first_of_all config state auth_info links : ∀ users found,
  MULTIAUTH_ALL_MATCHING_USERS config = true →
  collect' config state auth_info links users = Ok (users ++ found) →
  collect' (first_match_only config) state auth_info links users
    = Ok (users ++ take 1 found).
Proof.
  intros users found Hall. revert users found.
  induction links as [|l links IH]; intros users found.
  - simpl. intros [= Heq]. rewrite <- (app_nil_r users) in Heq at 1.
    apply app_inv_head in Heq as <-. by rewrite app_nil_r.
  - rewrite !collect_users_cons.
    destruct (link_query auth_info_map get_user_from_auth state auth_info l)
      as [[u|]|]; simpl; [| |done].
    + rewrite Hall. simpl. intros Hrest.
      destruct (collect_users_extends _ _ _ _ _ _ Hrest) as (found' & Heq).
      rewrite <- app_assoc in Heq. apply app_inv_head in Heq as ->. done.
    + apply IH.
Qed.

(** The two policies agree: when [handle_auth_info] calls the callback with
    a list under [MULTIAUTH_ALL_MATCHING_USERS], then without this option,
    and everything else the same, it calls the same callback with the first
    user of this list, or with [None] when the list is empty. *)
Theorem handle_auth_info_first_of_all (config : app_config) (state : _MultiAuthState)
    (user_callback : option Callback) (auth_info : AuthInfo)
    (callback : Callback) (users : list UserInfo) :
  MULTIAUTH_ALL_MATCHING_USERS config = true →
  handle_auth_info auth_info_map get_user_from_auth config state user_callback auth_info
    = Ok (Called callback (UserList users)) →
  handle_auth_info auth_info_map get_user_from_auth (first_match_only config) state
                   user_callback auth_info
    = Ok (Called callback (OneUser (head users))).
Proof.
  intros Hall. unfold handle_auth_info.
  destruct (provider_map state !! provider_name (auth_info_provider auth_info))
    as [links|]; simpl; [|done].
  destruct (collect' config state auth_info links []) as [us|] eqn:Hus; simpl; [|done].
  rewrite (collect_users_first_of_all config state auth_info links [] us Hall Hus).
  simpl. rewrite Hall.
  destruct us as [|u us]; simpl.
  - destruct (MULTIAUTH_REQUIRE_USER config); simpl; [done|].
    destruct user_callback; simpl; [|done]. by intros [= <- <-].
  - destruct user_callback; simpl; [|done]. by intros [= <- <-].
Qed.
(** For links that carry the key ['user_provider'], what the callback
    receives: under [MULTIAUTH_ALL_MATCHING_USERS] the users that the links
    found, in the order of the links; without it the user of the first link
    that found one, the links after it not being looked at. *)
Theorem handle_auth_info_found_users (config : app_config) (state : _MultiAuthState)
    (callback : Callback) (auth_info : AuthInfo) (links : list link) :
  provider_map state !! provider_name (auth_info_provider auth_info) = Some links →
  (MULTIAUTH_ALL_MATCHING_USERS config = true →
   ∀ found,
     Forall2 (λ l user_info,
                link_query auth_info_map get_user_from_auth state auth_info l
                  = Ok user_info) links found →
     omap id found ≠ [] →
     handle_auth_info auth_info_map get_user_from_auth config state (Some callback)
                      auth_info
       = Ok (Called callback (UserList (omap id found)))) ∧
  (MULTIAUTH_ALL_MATCHING_USERS config = false →
   ∀ pre l post u,
     links = pre ++ l :: post →
     Forall (λ l, link_query auth_info_map get_user_from_auth state auth_info l
                    = Ok None) pre →
     link_query auth_info_map get_user_from_auth state auth_info l = Ok (Some u) →
     handle_auth_info auth_info_map get_user_from_auth config state (Some callback)
                      auth_info
       = Ok (Called callback (OneUser (Some u)))).
Proof.
  intros Hlinks. split.
  - intros Hall found Hfound Hne. by eapply handle_auth_info_all_matches.
  - intros Hall pre l post u -> Hpre Hl. by eapply handle_auth_info_first_match.
Qed.
End policies.

Lemma handle_auth_info_found_users_witness :
  handle_auth_info (Callback := string) example_auth_info_map example_all_know
      {| MULTIAUTH_ALL_MATCHING_USERS := true; MULTIAUTH_REQUIRE_USER := true |}
      example_state_user_links (Some "callback") example_auth_info =
    Ok (Called "callback" (UserList (omap id [Some "x-user"; Some "y-user"]))) ∧
  handle_auth_info (Callback := string) example_auth_info_map example_only_y_knows
      {| MULTIAUTH_ALL_MATCHING_USERS := false; MULTIAUTH_REQUIRE_USER := true |}
      example_state_user_links (Some "callback") example_auth_info =
    Ok (Called "callback" (OneUser (Some "y-user"))).
Proof.
  split.
  - apply (proj1 (handle_auth_info_found_users (Callback := string)
                    example_auth_info_map example_all_know
                    {| MULTIAUTH_ALL_MATCHING_USERS := true;
                       MULTIAUTH_REQUIRE_USER := true |}
                    example_state_user_links "callback" example_auth_info
                    [Link None (Some "x") None;
                     Link None (Some "y") (Some {[ "id" := "uid" ]})]
                    eq_refl) eq_refl [Some "x-user"; Some "y-user"]).
    + apply Forall2_cons. split; [reflexivity|].
      apply Forall2_cons. split; [reflexivity|]. apply Forall2_nil_2.
    + discriminate.
  - apply (proj2 (handle_auth_info_found_users (Callback := string)
                    example_auth_info_map example_only_y_knows
                    {| MULTIAUTH_ALL_MATCHING_USERS := false;
                       MULTIAUTH_REQUIRE_USER := true |}
                    example_state_user_links "callback" example_auth_info
                    [Link None (Some "x") None;
                     Link None (Some "y") (Some {[ "id" := "uid" ]})]
                    eq_refl) eq_refl
                 [Link None (Some "x") None]
                 (Link None (Some "y") (Some {[ "id" := "uid" ]})) [] "y-user").
    + reflexivity.
    + apply Forall_cons. split; [reflexivity|]. apply Forall_nil_2.
    + reflexivity.
Defined.

Lemma handle_auth_info_first_of_all_witness :
  handle_auth_info (Callback := string) example_auth_info_map example_all_know
      (first_match_only
         {| MULTIAUTH_ALL_MATCHING_USERS := true; MULTIAUTH_REQUIRE_USER := true |})
      example_state_user_links (Some "callback") example_auth_info =
    Ok (Called "callback" (OneUser (head ["x-user"; "y-user"]))).
Proof.
  apply (handle_auth_info_first_of_all (Callback := string)
           example_auth_info_map example_all_know
           {| MULTIAUTH_ALL_MATCHING_USERS := true; MULTIAUTH_REQUIRE_USER := true |}
           example_state_user_links (Some "callback") example_auth_info "callback"
           ["x-user"; "y-user"]); reflexivity.
Defined.

(** ** More on the LDAP helpers *)

(** The builder returns no filter exactly when no criterion survives, for
    every type filter: it never returns a filter that holds the type filter
    alone. *)
Theorem build_search_filter_none (convert_app_data : dict → gmap string string → dict)
    (criteria : dict) (type_filter : string) (mapping : option (gmap string string))
    (exact : bool) :
  build_search_filter convert_app_data criteria type_filter mapping exact = Ok None ↔
  surviving (convert_app_data criteria (default ∅ mapping)) = [].
Proof.
  unfold build_search_filter.
  fold (surviving (convert_app_data criteria (default ∅ mapping))).
  destruct (surviving _) as [|kv assertions]; [done|].
  split; [|done].
  destruct (filter_format _ _); simpl; done.
Qed.





(** What [find_one] returns is the pair [(None, None)] or an entry of the
    answer of the directory, with a DN that is not empty; and an error of
    the search is passed on as it is. *)
Theorem find_one_result (current_ldap : LDAPContext) (base_dn search_filter : string)
    (attributes : option (list string)) :
  (∀ dn data,
     find_one current_ldap base_dn search_filter attributes = Ok (dn, data) →
     (dn = None ∧ data = None) ∨
     ∃ d a entry,
       dn = Some d ∧ data = Some a ∧ d ≠ "" ∧
       search_ext_s (connection current_ldap) base_dn SCOPE_SUBTREE search_filter
                    attributes (timeout (settings current_ldap)) 1 = Ok entry ∧
       (Some d, a) ∈ entry) ∧
  (∀ e,
     search_ext_s (connection current_ldap) base_dn SCOPE_SUBTREE search_filter
                  attributes (timeout (settings current_ldap)) 1 = Raise e →
     find_one current_ldap base_dn search_filter attributes = Raise e).
Proof.
  unfold find_one. split.
  - intros dn data.
    destruct (search_ext_s _ _ _ _ _ _ _) as [entry|]; simpl; [|done].
    destruct (filter (λ e : ldap_entry, truthy_dn e.1) entry) as [|[d a] rest] eqn:Hf;
      simpl.
    + intros [= <- <-]. by left.
    + intros [= <- <-]. right.
      assert (Hin : (d, a) ∈ filter (λ e : ldap_entry, truthy_dn e.1) entry)
        by (rewrite Hf; apply list_elem_of_here).
      apply list_elem_of_filter in Hin as [Htruthy Hin]. simpl in Htruthy.
      destruct d as [d|]; [|done]. exists d, a, entry.
      repeat split; [|done]. intros ->. done.
  - by intros e ->.
Qed.

Lemma find_one_result_witness :
  (Some "uid=jdoe,dc=example" = None ∧ Some ({[ "uid" := ["jdoe"] ]} : ldap_attrs) = None) ∨
  ∃ d a entry,
    Some "uid=jdoe,dc=example" = Some d ∧
    Some ({[ "uid" := ["jdoe"] ]} : ldap_attrs) = Some a ∧ d ≠ "" ∧
    search_ext_s (connection example_ldap) "dc=example" SCOPE_SUBTREE "(uid=jdoe)"
                 None (timeout (settings example_ldap)) 1 = Ok entry ∧
    (Some d, a) ∈ entry.
Proof.
  apply (proj1 (find_one_result example_ldap "dc=example" "(uid=jdoe)" None)).
  reflexivity.
Defined.

(** ** Searches and refresh *)

Section queries_facts.
Context {UserInfo GroupInfo : Type}.
Variable supports_search : provider → bool.
Variable has_groups : provider → bool.
Variable supports_refresh : provider → bool.
Variable map_search_criteria : provider → dict → dict.
Variable provider_search_users : provider → dict → bool → list UserInfo.
Variable provider_search_groups : provider → string → bool → list GroupInfo.
Variable provider_refresh_user : provider → string → dict → result (option UserInfo).

Lemma elem_of_itervalues {A : Type} (d : gmap string A) (x : A) :
  x ∈ itervalues d ↔ ∃ k, d !! k = Some x.
Proof.
  unfold itervalues. rewrite list_elem_of_fmap. split.
  - intros ([k y] & -> & Hin). exists k. by apply elem_of_map_to_list.
  - intros [k Hk]. exists (k, x). split; [done|]. by apply elem_of_map_to_list.
Qed.

Lemma flat_map_ext_elem {A B : Type} (f g : A → list B) (l : list A) :
  (∀ x, x ∈ l → f x = g x) → flat_map f l = flat_map g l.
Proof.
  induction l as [|x l IH]; intros Hfg; [done|].
  cbn [flat_map]. rewrite (Hfg x) by apply list_elem_of_here.
  rewrite IH; [done|]. intros y Hy. apply Hfg. by apply list_elem_of_further.
Qed.

(** A user is found by [search_users] exactly when a registered user
    provider that supports searching, and that the provider filter does not
    leave out, finds it for the criteria mapped by this provider. With the
    empty list as provider filter nothing is found, and with no filter the
    result is the one for the filter that lists every provider. *)
Theorem search_users_sources (state : _MultiAuthState) (exact : bool) (criteria : dict) :
  (∀ providers user,
     user ∈ search_users supports_search map_search_criteria provider_search_users
              state providers exact criteria ↔
     ∃ key provider,
       user_providers state !! key = Some provider ∧
       filtered_out providers provider = false ∧ supports_search provider = true ∧
       user ∈ provider_search_users provider (map_search_criteria provider criteria)
                exact) ∧
  search_users supports_search map_search_criteria provider_search_users
    state (Some []) exact criteria = [] ∧
  search_users supports_search map_search_criteria provider_search_users
    state None exact criteria =
  search_users supports_search map_search_criteria provider_search_users
    state (Some (provider_name <$> itervalues (user_providers state))) exact criteria.
Proof.
  split; [|split].
  - intros providers user. unfold search_users.
    rewrite list_elem_of_In, in_flat_map. split.
    + intros (provider & Hin%list_elem_of_In%elem_of_itervalues & Huser).
      destruct Hin as [key Hkey]. exists key, provider. split; [done|].
      destruct (filtered_out providers provider); [done|].
      destruct (supports_search provider); [|done].
      by apply list_elem_of_In in Huser.
    + intros (key & provider & Hkey & Hsel & Hcap & Huser). exists provider. split.
      * apply list_elem_of_In, elem_of_itervalues. by exists key.
      * rewrite Hsel, Hcap. by apply list_elem_of_In.
  - unfold search_users. induction (itervalues (user_providers state)) as [|p ps IH];
      [done|]. cbn [flat_map]. rewrite IH. unfold filtered_out.
    by rewrite bool_decide_eq_false_2 by apply not_elem_of_nil.
  - unfold search_users. apply flat_map_ext_elem. intros provider Hin.
    unfold filtered_out. rewrite bool_decide_eq_true_2; [done|].
    apply list_elem_of_fmap. by exists provider.
Qed.

(** The same for [search_groups] and the providers that have groups. *)
Theorem search_groups_sources (state : _MultiAuthState) (name : string) (exact : bool) :
  (∀ providers group,
     group ∈ search_groups has_groups provider_search_groups state name providers exact ↔
     ∃ key provider,
       user_providers state !! key = Some provider ∧
       filtered_out providers provider = false ∧ has_groups provider = true ∧
       group ∈ provider_search_groups provider name exact) ∧
  search_groups has_groups provider_search_groups state name (Some []) exact = [].
Proof.
  split.
  - intros providers group. unfold search_groups.
    rewrite list_elem_of_In, in_flat_map. split.
    + intros (provider & Hin%list_elem_of_In%elem_of_itervalues & Hgroup).
      destruct Hin as [key Hkey]. exists key, provider. split; [done|].
      destruct (filtered_out providers provider); [done|].
      destruct (has_groups provider); [|done].
      by apply list_elem_of_In in Hgroup.
    + intros (key & provider & Hkey & Hsel & Hcap & Hgroup). exists provider. split.
      * apply list_elem_of_In, elem_of_itervalues. by exists key.
      * rewrite Hsel, Hcap. by apply list_elem_of_In.
  - unfold search_groups. induction (itervalues (user_providers state)) as [|p ps IH];
      [done|]. cbn [flat_map]. rewrite IH. unfold filtered_out.
    by rewrite bool_decide_eq_false_2 by apply not_elem_of_nil.
Qed.

(** [refresh_user] returns only what the provider named under ['_provider']
    in the user's refresh data returns, and only when this provider is
    registered and supports refreshing. *)
Theorem refresh_user_delegates (state : _MultiAuthState) (identifier : string)
    (multiauth_data : option dict) (user : option UserInfo) :
  refresh_user supports_refresh provider_refresh_user state identifier multiauth_data
    = Ok user →
  ∃ data provider_name provider,
    multiauth_data = Some data ∧ data !! "_provider" = Some (VStr provider_name) ∧
    user_providers state !! provider_name = Some provider ∧
    supports_refresh provider = true ∧
    provider_refresh_user provider identifier data = Ok user.
Proof.
  unfold refresh_user. destruct multiauth_data as [data|]; [|done].
  destruct (data !! "_provider") as [[|n]|] eqn:Hn; [done| |done].
  destruct (user_providers state !! n) as [p|] eqn:Hp; [|done].
  destruct (supports_refresh p) eqn:Hs; [|done]. simpl.
  intros Hok. by exists data, n, p.
Qed.
End queries_facts.

Lemma refresh_user_delegates_witness :
  ∃ data name p,
    Some example_refresh_data = Some data ∧
    data !! "_provider" = Some (VStr name) ∧
    user_providers example_state_user_links !! name = Some p ∧
    (λ _ : provider, true) p = true ∧
    example_refresh p "jdoe" data = Ok (Some "jdoe@x").
Proof.
  apply (refresh_user_delegates (λ _, true) example_refresh example_state_user_links
           "jdoe" (Some example_refresh_data) (Some "jdoe@x")).
  reflexivity.
Defined.

(** ** The login process *)

Section login_facts.
Context {UserInfo Callback : Type}.
Variable url_for : string → list (string * option string) → string.
Variable format_failure : string → exc → string.
Variable is_multiauth_exception : exc → bool.
Variable auth_info_map : AuthInfo → gmap string string → result AuthInfo.
Variable get_user_from_auth : provider → AuthInfo → result (option UserInfo).
Variable is_external : provider → bool.
Variable initiate_external_login : provider → outcome response.
Variable login_form : provider → request → form.
Variable process_local_login : provider → dict → outcome AuthInfo.

Abbreviation browser' := (browser (UserInfo := UserInfo) (Callback := Callback)).

(** The URL saved for after the login is handed out once: what
    [_get_next_url] returns after [_set_next_url] is the [next] argument of
    the request when it has one that is not empty, and the URL of the
    success endpoint otherwise; a second [_get_next_url] returns the URL of
    the success endpoint. Neither of the two touches the failure flag. *)
Theorem next_url_round_trip (cfg : login_config) (req : request) (s : session) :
  (∀ next_url, args_next req = Some next_url → next_url ≠ "" →
     (_get_next_url url_for cfg (_set_next_url url_for cfg req s)).1 = next_url) ∧
  (args_next req = None ∨ args_next req = Some "" →
     (_get_next_url url_for cfg (_set_next_url url_for cfg req s)).1
       = url_for (MULTIAUTH_SUCCESS_ENDPOINT cfg) []) ∧
  (_get_next_url url_for cfg (_get_next_url url_for cfg s).2).1
    = url_for (MULTIAUTH_SUCCESS_ENDPOINT cfg) [] ∧
  (_get_next_url url_for cfg (_set_next_url url_for cfg req s)).2
    = {| multiauth_next_url := None; multiauth_auth_failed := multiauth_auth_failed s |}.
Proof.
  split; [|split; [|split]].
  - intros next_url Hnext Hne. unfold _set_next_url, _get_next_url. rewrite Hnext.
    simpl. unfold truthy_str. by destruct (String.eqb_spec next_url "").
  - intros [Hnext|Hnext]; unfold _set_next_url, _get_next_url; by rewrite Hnext.
  - unfold _get_next_url.
    destruct (multiauth_next_url s) as [next_url|] eqn:Hnext; simpl; [done|].
    by rewrite Hnext.
  - done.
Qed.

(** With a single auth provider and no failure flagged, the login selector
    redirects to the login of this provider and passes the [next] argument
    on. After [handle_auth_error] it shows the selector instead, with the
    failure, and takes the flag away: asked again, it redirects. *)
Theorem login_selector_single_provider (cfg : login_config) (state : _MultiAuthState)
    (req : request) (key : string) (provider : provider) :
  auth_providers state = {[ key := provider ]} →
  (∀ b : browser',
     default false (multiauth_auth_failed (browser_session b)) = false →
     (_login_selector url_for cfg state req b).2 =
       Returns (Redirect (url_for (MULTIAUTH_LOGIN_ENDPOINT cfg)
                            [("provider", Some (provider_name provider));
                             ("next", args_next req)]))) ∧
  (∀ (b : browser') e redirect_to_login,
     let failed := (handle_auth_error url_for format_failure cfg e redirect_to_login b).1 in
     (_login_selector url_for cfg state req failed).2 =
       render_template cfg "LOGIN_SELECTOR"
                       (SelectorContext [provider] (args_next req) true) ∧
     (_login_selector url_for cfg state req
        (_login_selector url_for cfg state req failed).1).2 =
       Returns (Redirect (url_for (MULTIAUTH_LOGIN_ENDPOINT cfg)
                            [("provider", Some (provider_name provider));
                             ("next", args_next req)]))).
Proof.
  intros Hsingle.
  assert (Hvalues : itervalues (auth_providers state) = [provider]).
  { unfold itervalues. by rewrite Hsingle, map_to_list_singleton. }
  split.
  - intros b Hflag. unfold _login_selector. rewrite Hvalues, Hflag. done.
  - intros b e redirect_to_login failed. subst failed.
    unfold _login_selector, handle_auth_error. rewrite !Hvalues.
    by destruct redirect_to_login.
Qed.

(** A view wrapped by [login_view] lets no [MultiAuthException] through:
    when the view raises one, the failure is flagged in the session and
    flashed, and the answer is the redirect to the login page. *)
Theorem login_view_catches (cfg : login_config)
    (func : browser' → browser' * outcome response) (b : browser') :
  (∀ e, (login_view url_for format_failure is_multiauth_exception cfg func b).2
          = Raises e →
        is_multiauth_exception e = false) ∧
  (∀ b' e, func b = (b', Raises e) → is_multiauth_exception e = true →
     login_view url_for format_failure is_multiauth_exception cfg func b =
       ({| browser_session :=
             {| multiauth_next_url := multiauth_next_url (browser_session b');
                multiauth_auth_failed := Some true |};
           flashes := flashes b' ++ [(format_failure (MULTIAUTH_FAILURE_MESSAGE cfg) e,
                                      MULTIAUTH_FAILURE_CATEGORY cfg)];
           callback_calls := callback_calls b' |},
        Returns (Some (Redirect (url_for (MULTIAUTH_LOGIN_ENDPOINT cfg) []))))).
Proof.
  unfold login_view. split.
  - intros e. destruct (func b) as [b' [r|e']]; [done|].
    destruct (is_multiauth_exception e') eqn:He'; [done|]. by intros [= <-].
  - intros b' e -> He. by rewrite He.
Qed.

(** A failed login through the form: when the submitted form is valid and
    the provider refuses the login with a [MultiAuthException], the failure
    is flagged and flashed, the callback is not called, the saved URL stays,
    and the answer is the login form again. *)
Theorem login_form_failure (cfg : login_config) (policy : app_config)
    (state : _MultiAuthState) (user_callback : option Callback)
    (provider : provider) (req : request) (b : browser') (e : exc) :
  is_submitted (login_form provider req) = true →
  validate_on_submit (login_form provider req) = true →
  process_local_login provider (form_data (login_form provider req)) = Raises e →
  is_multiauth_exception e = true →
  _login_form url_for format_failure is_multiauth_exception auth_info_map
              get_user_from_auth login_form process_local_login
              cfg policy state user_callback provider req b =
    ({| browser_session :=
          {| multiauth_next_url := multiauth_next_url (browser_session b);
             multiauth_auth_failed := Some true |};
        flashes := flashes b ++ [(format_failure (MULTIAUTH_FAILURE_MESSAGE cfg) e,
                                  MULTIAUTH_FAILURE_CATEGORY cfg)];
        callback_calls := callback_calls b |},
     render_template cfg "LOGIN_FORM" (FormContext (login_form provider req) provider)).
Proof.
  intros Hsub Hvalid Hlogin He. unfold _login_form.
  by rewrite Hsub, Hvalid, Hlogin, He.
Qed.

(** A login in two requests. The first request shows the form and saves the
    URL to go to; when the second submits a valid form, the provider accepts
    it and [handle_auth_info] calls the callback, the answer is the redirect
    to the saved URL, the URL is taken out of the session and the call is
    the only new one. *)
Theorem login_form_success (cfg : login_config) (policy : app_config)
    (state : _MultiAuthState) (user_callback : option Callback)
    (provider : provider) (first second : request) (b : browser')
    (auth_info : AuthInfo) (call : callback_call) :
  is_submitted (login_form provider first) = false →
  validate_on_submit (login_form provider first) = false →
  is_submitted (login_form provider second) = true →
  validate_on_submit (login_form provider second) = true →
  process_local_login provider (form_data (login_form provider second))
    = Returns auth_info →
  handle_auth_info auth_info_map get_user_from_auth policy state user_callback auth_info
    = Ok call →
  let shown :=
    _login_form url_for format_failure is_multiauth_exception auth_info_map
                get_user_from_auth login_form process_local_login
                cfg policy state user_callback provider first b in
  shown.2 = render_template cfg "LOGIN_FORM"
                            (FormContext (login_form provider first) provider) ∧
  _login_form url_for format_failure is_multiauth_exception auth_info_map
              get_user_from_auth login_form process_local_login
              cfg policy state user_callback provider second shown.1 =
    ({| browser_session :=
          {| multiauth_next_url := None;
             multiauth_auth_failed := multiauth_auth_failed (browser_session b) |};
        flashes := flashes b;
        callback_calls := callback_calls b ++ [call] |},
     Returns (Redirect (_get_next_url url_for cfg
                          (_set_next_url url_for cfg first (browser_session b))).1)).
Proof.
  intros Hsub1 Hvalid1 Hsub2 Hvalid2 Hlogin Hcall shown. subst shown.
  unfold _login_form. rewrite Hsub1, Hvalid1, Hsub2, Hvalid2, Hlogin, Hcall.
  done.
Qed.

End login_facts.

Lemma next_url_round_trip_witness :
  (_get_next_url example_url_for example_login_config
     (_set_next_url example_url_for example_login_config example_get
        (browser_session example_browser))).1 = "/private".
Proof.
  apply (proj1 (next_url_round_trip example_url_for example_login_config example_get
                  (browser_session example_browser)) "/private").
  - reflexivity.
  - discriminate.
Defined.

Lemma login_selector_single_provider_witness :
  (_login_selector example_url_for example_login_config example_state_user_links
                   example_get example_browser).2 =
    Returns (Redirect (example_url_for "login"
                         [("provider", Some (provider_name (example_provider "a")));
                          ("next", args_next example_get)])).
Proof.
  apply (proj1 (login_selector_single_provider example_url_for example_format_failure
                  example_login_config example_state_user_links example_get
                  "a" (example_provider "a") eq_refl) example_browser).
  reflexivity.
Defined.

Lemma login_view_catches_witness :
  login_view example_url_for example_format_failure example_is_multiauth_exception
             example_login_config
             (λ b, (b, Raises (MultiAuthException "Invalid credentials")))
             example_browser =
    ({| browser_session :=
          {| multiauth_next_url := None; multiauth_auth_failed := Some true |};
        flashes := [] ++ [(example_format_failure "Authentication failed: {error}"
                             (MultiAuthException "Invalid credentials"), "error")];
        callback_calls := [] |},
     Returns (Some (Redirect (example_url_for "login" [])))).
Proof.
  apply (proj2 (login_view_catches example_url_for example_format_failure
                  example_is_multiauth_exception example_login_config
                  (λ b, (b, Raises (MultiAuthException "Invalid credentials")))
                  example_browser)
           example_browser (MultiAuthException "Invalid credentials")); reflexivity.
Defined.

Lemma login_form_failure_witness :
  example_login (example_post "guess") example_browser =
    ({| browser_session :=
          {| multiauth_next_url := None; multiauth_auth_failed := Some true |};
        flashes := [] ++ [(example_format_failure "Authentication failed: {error}"
                             (MultiAuthException "Invalid credentials"), "error")];
        callback_calls := [] |},
     render_template example_login_config "LOGIN_FORM"
       (FormContext (example_login_form (example_provider "a") (example_post "guess"))
                    (example_provider "a"))).
Proof.
  apply (login_form_failure example_url_for example_format_failure
           example_is_multiauth_exception example_auth_info_map example_all_know
           example_login_form example_process_local_login example_login_config
           {| MULTIAUTH_ALL_MATCHING_USERS := false; MULTIAUTH_REQUIRE_USER := true |}
           example_state_user_links (Some "callback") (example_provider "a")
           (example_post "guess") example_browser
           (MultiAuthException "Invalid credentials")); reflexivity.
Defined.

Lemma login_form_success_witness :
  example_login (example_post "secret") (example_login example_get example_browser).1 =
    ({| browser_session :=
          {| multiauth_next_url := None; multiauth_auth_failed := None |};
        flashes := [];
        callback_calls := [] ++ [Called "callback" (OneUser (Some "x-user"))] |},
     Returns (Redirect "/private")).
Proof.
  apply (proj2 (login_form_success example_url_for example_format_failure
                  example_is_multiauth_exception example_auth_info_map example_all_know
                  example_login_form example_process_local_login example_login_config
                  {| MULTIAUTH_ALL_MATCHING_USERS := false;
                     MULTIAUTH_REQUIRE_USER := true |}
                  example_state_user_links (Some "callback") (example_provider "a")
                  example_get (example_post "secret") example_browser
                  example_auth_info (Called "callback" (OneUser (Some "x-user")))
                  eq_refl eq_refl eq_refl eq_refl eq_refl eq_refl)).
Defined.


(** ** LDAP connections *)

Section connections_facts.
Context {Conn : Type}.
Variable urlparse_scheme : string → string.
Variable perform : ldap_call → option exc.
Variable new_connection : string → Conn.
Variable unbind_s : Conn → option exc.
Variable hash_text : string → Z.

(** When StartTLS is asked for on a URI that is not [ldaps], the bind is
    sent only after [start_tls_s] was called and did not fail, and it
    carries the configured DN and password. On a URI with the scheme
    [ldaps], [start_tls_s] is never called. *)
Theorem ldap_connect_starttls_before_bind (settings : connection_settings) :
  (starttls settings = true → urlparse_scheme (uri settings) ≠ "ldaps" →
   ∀ who cred,
     simple_bind_s who cred
       ∈ (ldap_connect_uncached urlparse_scheme perform new_connection settings).1 →
     perform start_tls_s = None ∧
     start_tls_s ∈ (ldap_connect_uncached urlparse_scheme perform new_connection settings).1 ∧
     who = bind_dn settings ∧ cred = bind_password settings) ∧
  (urlparse_scheme (uri settings) = "ldaps" →
   start_tls_s ∉ (ldap_connect_uncached urlparse_scheme perform new_connection settings).1).
Proof.
  unfold ldap_connect_uncached, ldap_connect_calls. simpl. split.
  - intros -> Hscheme who cred.
    apply String.eqb_neq in Hscheme. rewrite Hscheme. simpl.
    destruct (perform (initialize _)); simpl; [by intros ?%list_elem_of_singleton|].
    destruct (perform (set_protocol_version _)); simpl;
      [by intros [?|?%list_elem_of_singleton]%elem_of_cons|].
    destruct (perform (set_option "OPT_REFERRALS" _)); simpl;
      [by intros [?|[?|?%list_elem_of_singleton]%elem_of_cons]%elem_of_cons|].
    destruct (perform (set_option "OPT_X_TLS" _)); simpl;
      [by intros [?|[?|[?|?%list_elem_of_singleton]%elem_of_cons]%elem_of_cons]%elem_of_cons|].
    destruct (perform start_tls_s); simpl;
      [by intros [?|[?|[?|[?|?%list_elem_of_singleton]%elem_of_cons]%elem_of_cons]%elem_of_cons]%elem_of_cons|].
    intros Hin. split; [done|]. split.
    + do 4 apply list_elem_of_further. apply list_elem_of_here.
    + destruct (perform (simple_bind_s _ _)); simpl in Hin;
        repeat (apply elem_of_cons in Hin as [Hin|Hin]; [by simplify_eq|]);
        by apply elem_of_nil in Hin.
  - intros ->. simpl.
    destruct (perform (initialize _)); simpl; [by intros ?%list_elem_of_singleton|].
    destruct (perform (set_protocol_version _)); simpl;
      [by intros [?|?%list_elem_of_singleton]%elem_of_cons|].
    destruct (perform (set_option "OPT_REFERRALS" _)); simpl;
      [by intros [?|[?|?%list_elem_of_singleton]%elem_of_cons]%elem_of_cons|].
    destruct (perform (set_option "OPT_X_TLS" _)); simpl;
      [by intros [?|[?|[?|?%list_elem_of_singleton]%elem_of_cons]%elem_of_cons]%elem_of_cons|].
    destruct (starttls settings); simpl.
    + destruct (perform (warn _)); simpl; intros Hin;
        repeat (apply elem_of_cons in Hin as [Hin|Hin]; [by simplify_eq|]);
        [by apply elem_of_nil in Hin|].
      destruct (perform (simple_bind_s _ _)); simpl in Hin;
        repeat (apply elem_of_cons in Hin as [Hin|Hin]; [by simplify_eq|]);
        by apply elem_of_nil in Hin.
    + intros Hin.
      repeat (apply elem_of_cons in Hin as [Hin|Hin]; [by simplify_eq|]).
      destruct (perform (simple_bind_s _ _)); simpl in Hin;
        repeat (apply elem_of_cons in Hin as [Hin|Hin]; [by simplify_eq|]);
        by apply elem_of_nil in Hin.
Qed.
(** Inside an application context a connection is made once for each key:
    after a call that returned a connection, a call with settings that have
    the same key returns this connection, changes nothing and does not run
    the function it decorates. *)
Theorem cache_ldap_connection_hit
    (fn fn' : connection_settings → list ldap_call * outcome Conn)
    (settings settings' : connection_settings) (st : ldap_state (Conn := Conn))
    (cache : option (gmap cache_key Conn)) (connection : Conn) :
  app_ctx st = AppContext cache →
  (_cache_ldap_connection hash_text fn settings st).2 = Returns connection →
  conn_key hash_text settings' = conn_key hash_text settings →
  _cache_ldap_connection hash_text fn' settings'
                         (_cache_ldap_connection hash_text fn settings st).1 =
    ((_cache_ldap_connection hash_text fn settings st).1, Returns connection).
Proof.
  intros Hctx Hconn Hkey. unfold _cache_ldap_connection in *. rewrite Hctx in *.
  rewrite Hkey. clear Hkey Hctx.
  destruct cache as [cache|]; simpl in *.
  - destruct (cache !! conn_key hash_text settings) as [c|] eqn:Hc; simpl in *.
    + injection Hconn as ->. by rewrite Hc.
    + destruct (fn settings) as [made [c|e]]; simpl in *; [|done].
      injection Hconn as ->. by rewrite lookup_insert_eq.
  - rewrite lookup_empty in *. simpl in *.
    destruct (fn settings) as [made [c|e]]; simpl in *; [|done].
    injection Hconn as ->. by rewrite lookup_insert_eq.
Qed.

(** Outside an application context nothing is kept: every call runs the
    function it decorates and leaves no cache behind. *)
Theorem cache_ldap_connection_no_context
    (fn : connection_settings → list ldap_call * outcome Conn)
    (settings : connection_settings) (st : ldap_state (Conn := Conn)) :
  app_ctx st = NoAppContext →
  (_cache_ldap_connection hash_text fn settings st).2 = (fn settings).2 ∧
  app_ctx (_cache_ldap_connection hash_text fn settings st).1 = NoAppContext ∧
  calls (_cache_ldap_connection hash_text fn settings st).1
    = calls st ++ (fn settings).1.
Proof.
  intros Hctx. unfold _cache_ldap_connection. rewrite Hctx. simpl.
  rewrite lookup_empty. by destruct (fn settings) as [made [c|e]].
Qed.

Lemma translate_ldap_error_translated (e : exc) (kind : string) :
  translate_ldap_error e = Std (LDAPError kind) →
  kind ∉ ["SERVER_DOWN"; "INVALID_CREDENTIALS"; "SIZELIMIT_EXCEEDED";
          "TIMELIMIT_EXCEEDED"; "TIMEOUT"; "FILTER_ERROR"].
Proof.
  destruct e as [e0|msg|msg]; [|done..].
  destruct e0 as [| | | | | | | |k].
  all: try done.
  simpl.
  destruct (String.eqb_spec k "SERVER_DOWN") as [->|H1]; [discriminate|].
  destruct (String.eqb_spec k "INVALID_CREDENTIALS") as [->|H2]; [discriminate|].
  destruct (String.eqb_spec k "SIZELIMIT_EXCEEDED") as [->|H3]; [discriminate|].
  destruct (String.eqb_spec k "TIMELIMIT_EXCEEDED") as [->|H4]; [discriminate|].
  destruct (String.eqb_spec k "TIMEOUT") as [->|H5]; [discriminate|].
  destruct (String.eqb_spec k "FILTER_ERROR") as [->|H6]; [discriminate|].
  intros [= <-].
  repeat (apply not_elem_of_cons; split; [assumption|]). apply not_elem_of_nil.
Qed.

(** No LDAP error of the kinds that [ldap_context] handles comes out of it,
    whether the connection or the body raised it. *)
Theorem ldap_context_translates {A : Type} (settings : connection_settings)
    (body : frame → ldap_state → ldap_state * outcome A)
    (st : ldap_state (Conn := Conn)) (kind : string) :
  (ldap_context urlparse_scheme perform new_connection hash_text settings body st).2
    = Raises (Std (LDAPError kind)) →
  kind ∉ ["SERVER_DOWN"; "INVALID_CREDENTIALS"; "SIZELIMIT_EXCEEDED";
          "TIMELIMIT_EXCEEDED"; "TIMEOUT"; "FILTER_ERROR"].
Proof.
  unfold ldap_context.
  destruct (ldap_connect _ _ _ _ _ _).2 as [connection|e]; simpl.
  - match goal with
    | |- match ?r with _ => _ end = _ → _ => destruct r as [a|e]
    end; [done|].
    intros [= He]. by apply translate_ldap_error_translated in He.
  - intros [= He]. by apply translate_ldap_error_translated in He.
Qed.

(** When the body leaves the stack of contexts as it finds it, so does
    [ldap_context], and what the body returns is what [ldap_context]
    returns. *)
Theorem ldap_context_stack {A : Type} (settings : connection_settings)
    (body : frame → ldap_state → ldap_state * outcome A)
    (st : ldap_state (Conn := Conn)) :
  (∀ ldap_ctx st', frames (body ldap_ctx st').1 = frames st') →
  frames (ldap_context urlparse_scheme perform new_connection hash_text
                       settings body st).1 = frames st ∧
  ∀ connection,
    (ldap_connect urlparse_scheme perform new_connection hash_text settings st).2
      = Returns connection →
    ∃ ldap_ctx st',
      frame_connection ldap_ctx = connection ∧ frame_settings ldap_ctx = settings ∧
      frames st' = ldap_ctx :: frames st ∧
      (ldap_context urlparse_scheme perform new_connection hash_text settings body st).2
        = match (body ldap_ctx st').2 with
          | Returns a => Returns a
          | Raises e => Raises (translate_ldap_error e)
          end.
Proof.
  intros Hbody.
  assert (Hframes : frames (ldap_connect urlparse_scheme perform new_connection
                              hash_text settings st).1 = frames st).
  { unfold ldap_connect, _cache_ldap_connection.
    destruct ((_get_ldap_cache (app_ctx st)).1 !! _); [done|].
    by destruct (ldap_connect_uncached _ _ _ _).2. }
  unfold ldap_context.
  destruct (ldap_connect _ _ _ _ _ _).2 as [connection|e] eqn:Hconn; simpl.
  - rewrite !Hbody. simpl. rewrite bool_decide_eq_true_2 by done.
    split; [done|]. intros c [= <-].
    eexists _, _. split; [|split; [|split]]; [| | |reflexivity]; simpl; try done.
    by rewrite Hframes.
  - split; [done|]. by intros c.
Qed.

(** [_clear_ldap_cache] lets no LDAP error out, and when [unbind_s] raises
    nothing else, it calls it on every cached connection. *)
Theorem clear_ldap_cache_swallows (connections : option (gmap cache_key Conn)) :
  (∀ kind, (_clear_ldap_cache unbind_s connections).2 ≠ Some (Std (LDAPError kind))) ∧
  ((∀ conn e, unbind_s conn = Some e → ∃ kind, e = Std (LDAPError kind)) →
   _clear_ldap_cache unbind_s connections =
     (snd <$> map_to_list (default ∅ connections), None)).
Proof.
  unfold _clear_ldap_cache.
  generalize (snd <$> map_to_list (default ∅ connections)). intros conns. split.
  - intros kind. induction conns as [|c conns IH]; simpl; [done|].
    destruct (unbind_s c) as [[[]| |]|]; simpl; try done.
  - intros Hldap. induction conns as [|c conns IH]; simpl; [done|].
    destruct (unbind_s c) as [e|] eqn:Hc; simpl.
    + destruct (Hldap c e Hc) as [kind ->]. by rewrite IH.
    + by rewrite IH.
Qed.
End connections_facts.

Lemma ldap_connect_starttls_before_bind_witness :
  example_perform start_tls_s = None ∧
  start_tls_s ∈ (example_connect example_settings).1 ∧
  "cn=reader,dc=example" = bind_dn example_settings ∧
  "secret" = bind_password example_settings.
Proof.
  apply (proj1 (ldap_connect_starttls_before_bind example_scheme example_perform
                  (λ uri, uri) example_settings) eq_refl).
  - discriminate.
  - compute_done.
Defined.

Lemma cache_ldap_connection_hit_witness :
  _cache_ldap_connection example_hash example_unreachable example_settings_slow
    (_cache_ldap_connection example_hash example_connect example_settings
                            example_ldap_state).1 =
  ((_cache_ldap_connection example_hash example_connect example_settings
                           example_ldap_state).1,
   Returns "ldap://ldap.example.org").
Proof.
  apply (cache_ldap_connection_hit example_hash example_connect example_unreachable
           example_settings example_settings_slow example_ldap_state None
           "ldap://ldap.example.org"); reflexivity.
Defined.

Lemma cache_ldap_connection_no_context_witness :
  (_cache_ldap_connection example_hash example_connect example_settings
     {| app_ctx := NoAppContext; frames := []; next_id := 0; calls := [] |}).2
    = (example_connect example_settings).2 ∧
  app_ctx (_cache_ldap_connection example_hash example_connect example_settings
             {| app_ctx := NoAppContext; frames := []; next_id := 0; calls := [] |}).1
    = NoAppContext ∧
  calls (_cache_ldap_connection example_hash example_connect example_settings
           {| app_ctx := NoAppContext; frames := []; next_id := 0; calls := [] |}).1
    = calls {| app_ctx := NoAppContext (Conn := string); frames := [];
               next_id := 0; calls := [] |}
      ++ (example_connect example_settings).1.
Proof.
  apply (cache_ldap_connection_no_context example_hash example_connect example_settings
           {| app_ctx := NoAppContext; frames := []; next_id := 0; calls := [] |}).
  reflexivity.
Defined.

Lemma ldap_context_translates_witness :
  "NO_SUCH_OBJECT" ∉ ["SERVER_DOWN"; "INVALID_CREDENTIALS"; "SIZELIMIT_EXCEEDED";
                      "TIMELIMIT_EXCEEDED"; "TIMEOUT"; "FILTER_ERROR"].
Proof.
  apply (ldap_context_translates example_scheme example_perform (λ uri, uri)
           example_hash example_settings example_body_fails example_ldap_state
           "NO_SUCH_OBJECT").
  reflexivity.
Defined.

Lemma ldap_context_stack_witness :
  frames (ldap_context example_scheme example_perform (λ uri, uri) example_hash
                       example_settings example_body example_ldap_state).1
    = frames example_ldap_state.
Proof.
  apply (ldap_context_stack example_scheme example_perform (λ uri, uri) example_hash
           example_settings example_body example_ldap_state).
  reflexivity.
Defined.

(** ** [init_app] *)

(** Once [init_app] got past its first check on an application, every
    further [init_app] on it raises [RuntimeError] and changes nothing,
    whether the first call completed or not. *)
Theorem init_app_twice (iter_entry_points iter_entry_points' :
                          provider_base → string → list entry_point)
    (app : flask_app) :
  extension app = None →
  init_app iter_entry_points' (init_app iter_entry_points app).1 =
    ((init_app iter_entry_points app).1,
     Raise (RuntimeError "Flask application already initialized")).
Proof.
  intros Hfresh. unfold init_app at 2 3. rewrite Hfresh.
  destruct (_create_providers iter_entry_points _ AuthProvider) as [auth|e]; [|done].
  destruct (_create_providers iter_entry_points _ UserProvider) as [user|e]; done.
Qed.

(** With the state class as it is defined, [init_app] never completes: its
    state has no attribute [identity_providers], which the validation needs
    to pass. *)
Theorem init_app_never_completes
    (iter_entry_points : provider_base → string → list entry_point) (app : flask_app) :
  (init_app iter_entry_points app).2 ≠ Ok ().
Proof.
  unfold init_app. destruct (extension app); [done|].
  destruct (_create_providers iter_entry_points _ AuthProvider) as [auth|e]; [|done].
  destruct (_create_providers iter_entry_points _ UserProvider) as [user|e]; [|done].
  unfold validate_provider_map. simpl. case_bool_decide; [done|].
  by destruct (targeted_providers _).
Qed.

(** ** [SupportsMeta] *)

Lemma check_methods_ok (base : root_desc) (cls : class_desc) (supported : bool)
    (message : string) (methods : list string) :
  Forall (λ method, method ∈ root_methods base) methods →
  (check_methods base cls supported message methods = Ok () ↔
   Forall (λ method, supported = bool_decide (method ∈ class_overrides cls)) methods) ∧
  (check_methods base cls supported message methods = Ok () ∨
   ∃ msg, check_methods base cls supported message methods = Raise (TypeError msg)).
Proof.
  induction 1 as [|method methods Hm _ [IHiff IHor]]; simpl.
  - split; [|by left]. split; [by constructor|done].
  - rewrite bool_decide_eq_true_2 by done. simpl.
    destruct supported, (bool_decide (method ∈ class_overrides cls)) eqn:Ho; simpl.
    + split; [|done]. rewrite IHiff. split.
      * intros ?. constructor; [by rewrite Ho|done].
      * by intros [_ ?]%Forall_cons.
    + split; [|by eauto]. split; [done|].
      intros [Heq _]%Forall_cons. simpl in Heq. congruence.
    + split; [|by eauto]. split; [done|].
      intros [Heq _]%Forall_cons. simpl in Heq. congruence.
    + split; [|done]. rewrite IHiff. split.
      * intros ?. constructor; [by rewrite Ho|done].
      * by intros [_ ?]%Forall_cons.
Qed.

(** For a root class whose [__support_attrs__] names attributes and methods
    that it has, the creation of a class succeeds exactly when, for every
    item, each of its methods is overridden if the class supports the item
    and left alone if it does not; otherwise it fails with [TypeError]. *)
Theorem SupportsMeta_new_checks (base : root_desc) (cls : class_desc) :
  well_formed_root base →
  (SupportsMeta_new (Some base) cls = Ok () ↔
   ∀ attr methods method,
     (attr, methods) ∈ support_attrs base → method ∈ methods →
     supports base cls attr = bool_decide (method ∈ class_overrides cls)) ∧
  (SupportsMeta_new (Some base) cls = Ok () ∨
   ∃ msg, SupportsMeta_new (Some base) cls = Raise (TypeError msg)).
Proof.
  unfold SupportsMeta_new, well_formed_root.
  induction 1 as [|[attr methods] items [Hattr Hmethods] _ [IHiff IHor]]; simpl in *.
  { split; [|by left]. split; [|done]. by intros _ attr methods method ?%elem_of_nil. }
  assert (Hcheck : ∃ message,
            match attr with
            | AttrCallable func message => check_methods base cls (func cls) message methods
            | AttrName attr =>
                supported ← getattr_supported base cls attr;
                check_methods base cls supported (attr +:+ " is True") methods
            end = check_methods base cls (supports base cls attr) message methods).
  { destruct attr as [a|func message]; simpl; [|by eauto].
    destruct Hattr as [v Hv]. unfold getattr_supported. rewrite Hv. simpl.
    by eauto. }
  destruct Hcheck as [message ->].
  destruct (check_methods_ok base cls (supports base cls attr) message methods Hmethods)
    as [Hiff Hor].
  destruct (check_methods base cls (supports base cls attr) message methods)
    as [[]|e] eqn:Hc; simpl.
  - split; [|done]. rewrite IHiff. split.
    + intros Hitems attr' methods' method [Heq|Hin]%elem_of_cons Hmethod.
      * simplify_eq. apply proj1 in Hiff. specialize (Hiff eq_refl).
        by eapply Forall_forall in Hiff.
      * by eapply Hitems.
    + intros Hall attr' methods' method Hin. apply Hall. by apply list_elem_of_further.
  - destruct Hor as [?|[msg Hmsg]]; [done|]. split; [|by eauto].
    split; [done|]. intros Hall. apply proj2 in Hiff.
    assert (Raise e = Ok ()) as Hbad; [|done]. apply Hiff.
    apply Forall_forall. intros method Hmethod.
    apply (Hall attr methods method); [apply list_elem_of_here|done].
Qed.

Lemma init_app_twice_witness :
  init_app example_entry_points (init_app example_entry_points example_app).1 =
    ((init_app example_entry_points example_app).1,
     Raise (RuntimeError "Flask application already initialized")).
Proof. apply (init_app_twice example_entry_points example_entry_points example_app). reflexivity. Defined.

Lemma SupportsMeta_new_checks_witness :
  SupportsMeta_new (Some example_root) example_class = Ok ().
Proof.
  assert (Hroot : well_formed_root example_root).
  { repeat constructor; simpl; (by eexists) || set_solver. }
  apply (proj2 (proj1 (SupportsMeta_new_checks example_root example_class Hroot))).
  intros attr methods method Hitem Hmethod. simpl in Hitem.
  apply elem_of_cons in Hitem as [Hitem|Hitem].
  { injection Hitem as -> ->. apply list_elem_of_singleton in Hmethod as ->.
    reflexivity. }
  apply list_elem_of_singleton in Hitem. injection Hitem as -> ->.
  apply list_elem_of_singleton in Hmethod as ->. reflexivity.
Defined.
